(** * The persistence layer of the meeting-minutes backend

    A shallow embedding of [backend/app/db.py] (class [DatabaseManager]):
    the summary-process tracker, the accumulating transcript buffer, the
    meeting registry and the settings row with its API keys.

    Modelling conventions.
    - A table is the list of its rows, in insertion order.  The constraints
      the schema of [_init_db] declares (PRIMARY KEY) are checked by the
      statements that can violate them; foreign keys are declared but never
      switched on by the code, so they constrain nothing.
    - A Python [str] is a [string]; each character stands for one code point
      below 256.  [None] is [None], and a nullable column is an [option].
    - [datetime.utcnow().isoformat()] and SQL's [datetime('now')] read the
      clock: every operation takes the value read as its argument [now].
    - An operation runs on a connection, which holds the committed database,
      the uncommitted one and the counter [total_changes]; what is not
      committed when the connection closes is lost.
    - A raised exception is the outcome [Raise]; the database after the call
      is returned next to it.
    - Values pass through the sqlite3 driver when a statement is executed:
      a Python int outside the 64-bit signed range makes the call raise
      OverflowError before the statement runs; a float NaN is stored as
      NULL, and a zero of either sign is read back as 0.0. *)

From Stdlib Require Import String Ascii List ZArith Bool Arith Lia.
From Stdlib Require Import PrimFloat DecimalString.
Import ListNotations.
Open Scope string_scope.

(* ------------------------------------------------------------------ *)
(** ** Python values *)

(** Truth value of a [str]: the empty string is false. *)
Definition str_truthy (s : string) : bool := negb (s =? "").

(** The exceptions the operations raise. *)
Inductive exn : Type :=
| ValueError (msg : string)
| Exception (msg : string)
| IntegrityError (msg : string)
| UnboundLocalError (msg : string)
| OverflowError (msg : string).

Inductive outcome (A : Type) : Type :=
| Ok (a : A)
| Raise (e : exn).
Arguments Ok {A} a.
Arguments Raise {A} e.

Set Warnings "-register-all".

(** JSON-compatible payloads ([result], [metadata]): null, booleans,
    integers, strings, lists, and dicts with string keys. *)
Inductive json : Type :=
| JNull
| JBool (b : bool)
| JInt (z : Z)
| JStr (s : string)
| JList (items : list json)
| JDict (items : list (string * json)).

(** A Python [Dict] argument: its items in insertion order. *)
Definition Dict : Type := list (string * json).

Definition dquote : ascii := ascii_of_nat 34.
Definition backslash : ascii := ascii_of_nat 92.
Definition chr (c : ascii) : string := String c EmptyString.

Definition hex_digit (n : nat) : ascii :=
  if (n <? 10)%nat then ascii_of_nat (48 + n) else ascii_of_nat (87 + n).

(** ['\\u{0:04x}'.format(n)] *)
Definition escape_u (n : nat) : string :=
  String backslash
    (String "u"
       (String (hex_digit (n / 4096 mod 16))
          (String (hex_digit (n / 256 mod 16))
             (String (hex_digit (n / 16 mod 16))
                (String (hex_digit (n mod 16)) EmptyString))))).

(** One character of a string under [json.dumps] (ensure_ascii): the quote
    and the backslash are escaped, the usual control characters have their
    short form, anything else outside [' '..'~'] becomes [\uXXXX]. *)
Definition escape_char (c : ascii) : string :=
  let n := nat_of_ascii c in
  if (n =? 34)%nat then String backslash (chr dquote)
  else if (n =? 92)%nat then String backslash (chr backslash)
  else if (n =? 10)%nat then String backslash "n"
  else if (n =? 13)%nat then String backslash "r"
  else if (n =? 9)%nat then String backslash "t"
  else if (n =? 12)%nat then String backslash "f"
  else if (n =? 8)%nat then String backslash "b"
  else if ((32 <=? n) && (n <=? 126))%nat then chr c
  else escape_u n.

Fixpoint escape_body (s : string) : string :=
  match s with
  | EmptyString => EmptyString
  | String c rest => escape_char c ++ escape_body rest
  end.

Definition encode_str (s : string) : string :=
  chr dquote ++ escape_body s ++ chr dquote.

Definition encode_int (z : Z) : string := NilZero.string_of_int (Z.to_int z).

(** [json.dumps] with its default separators [", "] and [": "]. *)
Fixpoint json_dumps (j : json) : string :=
  match j with
  | JNull => "null"
  | JBool true => "true"
  | JBool false => "false"
  | JInt z => encode_int z
  | JStr s => encode_str s
  | JList l =>
      "[" ++
      (fix elems (l : list json) : string :=
         match l with
         | [] => ""
         | x :: rest =>
             json_dumps x ++
             match rest with [] => "" | _ :: _ => ", " ++ elems rest end
         end) l ++ "]"
  | JDict d =>
      "{" ++
      (fix pairs (d : list (string * json)) : string :=
         match d with
         | [] => ""
         | (k, v) :: rest =>
             encode_str k ++ ": " ++ json_dumps v ++
             match rest with [] => "" | _ :: _ => ", " ++ pairs rest end
         end) d ++ "}"
  end.

(** [if result:] on an [Optional[Dict]]: [None] and the empty dict are
    false. *)
Definition dict_truthy (d : option Dict) : bool :=
  match d with
  | Some (_ :: _) => true
  | _ => false
  end.

(** [if error:] on an [Optional[str]]. *)
Definition opt_str_truthy (s : option string) : bool :=
  match s with
  | Some s => str_truthy s
  | None => false
  end.

(** The range of an SQLite INTEGER. *)
Definition fits_int64 (z : Z) : bool :=
  ((- 2 ^ 63 <=? z) && (z <=? 2 ^ 63 - 1))%Z.

(** What the driver raises when it is given a Python int outside that
    range as a parameter. *)
Definition overflow : exn :=
  OverflowError "Python int too large to convert to SQLite INTEGER".

(** What a REAL column gives back for a Python float bound to it: NULL for
    NaN, 0.0 for a zero of either sign, the float itself otherwise. *)
Definition bind_real (x : float) : option float :=
  if PrimFloat.is_nan x then None
  else if PrimFloat.is_zero x then Some 0%float
  else Some x.


(* ------------------------------------------------------------------ *)
(** ** The schema: one module per table of [_init_db] *)

Module Meetings.
Record row : Type := {
  id : string;
  title : string;
  created_at : string;
  updated_at : string
}.
End Meetings.

Module Transcripts.
Record row : Type := {
  id : option string;
  meeting_id : string;
  transcript : string;
  timestamp : string;
  summary : option string;
  action_items : option string;
  key_points : option string
}.
End Transcripts.

Module SummaryProcesses.
Record row : Type := {
  meeting_id : string;
  status : string;
  created_at : string;
  updated_at : string;
  error : option string;
  result : option string;
  start_time : option string;
  end_time : option string;
  chunk_count : option Z;
  processing_time : option float;
  metadata : option string
}.
End SummaryProcesses.

Module TranscriptChunks.
Record row : Type := {
  meeting_id : string;
  meeting_name : option string;
  transcript_text : string;
  model : string;
  model_name : string;
  chunk_size : option Z;
  overlap : option Z;
  created_at : string
}.
End TranscriptChunks.

Module Settings.
Record row : Type := {
  id : string;
  provider : string;
  model : string;
  whisperModel : string;
  groqApiKey : option string;
  openaiApiKey : option string;
  anthropicApiKey : option string;
  ollamaApiKey : option string
}.
End Settings.

(** The database: the five tables. *)
Record db : Type := {
  meetings : list Meetings.row;
  transcripts : list Transcripts.row;
  summary_processes : list SummaryProcesses.row;
  transcript_chunks : list TranscriptChunks.row;
  settings : list Settings.row
}.

Definition set_meetings (t : list Meetings.row) (d : db) : db :=
  {| meetings := t;
     transcripts := transcripts d;
     summary_processes := summary_processes d;
     transcript_chunks := transcript_chunks d;
     settings := settings d |}.

Definition set_summary_processes (t : list SummaryProcesses.row) (d : db) : db :=
  {| meetings := meetings d;
     transcripts := transcripts d;
     summary_processes := t;
     transcript_chunks := transcript_chunks d;
     settings := settings d |}.

Definition set_transcript_chunks (t : list TranscriptChunks.row) (d : db) : db :=
  {| meetings := meetings d;
     transcripts := transcripts d;
     summary_processes := summary_processes d;
     transcript_chunks := t;
     settings := settings d |}.

Definition set_settings (t : list Settings.row) (d : db) : db :=
  {| meetings := meetings d;
     transcripts := transcripts d;
     summary_processes := summary_processes d;
     transcript_chunks := transcript_chunks d;
     settings := t |}.

(* ------------------------------------------------------------------ *)
(** ** SQL statements on a table *)

Section Sql.
Context {R : Type}.

(** Rows a WHERE clause selects. *)
Definition sql_where (w : R -> bool) (t : list R) : list R := filter w t.

(** [UPDATE t SET ... WHERE w]: the new table. *)
Definition sql_update (w : R -> bool) (set_ : R -> R) (t : list R) : list R :=
  map (fun r => if w r then set_ r else r) t.

(** Number of rows a statement with that WHERE clause changes. *)
Definition sql_rowcount (w : R -> bool) (t : list R) : nat :=
  length (sql_where w t).

(** [cursor.fetchone()] of a SELECT. *)
Definition sql_fetchone (w : R -> bool) (t : list R) : option R := find w t.

(** [INSERT INTO t]: the row is refused when its primary key is taken. *)
Definition sql_insert (same_key : R -> bool) (r : R) (t : list R)
  : option (list R) :=
  if existsb same_key t then None else Some (t ++ [r])%list.

(** [INSERT OR REPLACE INTO t]: rows holding the key are deleted first. *)
Definition sql_insert_or_replace (same_key : R -> bool) (r : R) (t : list R)
  : list R :=
  (filter (fun x => negb (same_key x)) t ++ [r])%list.

(** [INSERT OR IGNORE INTO t]: nothing happens when the key is taken. *)
Definition sql_insert_or_ignore (same_key : R -> bool) (r : R) (t : list R)
  : list R :=
  if existsb same_key t then t else (t ++ [r])%list.

End Sql.

(* ------------------------------------------------------------------ *)
(** ** Connections *)

Record connection : Type := {
  committed : db;
  pending : db;
  total_changes : nat
}.

(** Code running on an open connection. *)
Definition sql (A : Type) : Type := connection -> outcome A * connection.

Definition ret {A : Type} (a : A) : sql A := fun c => (Ok a, c).

Definition raise {A : Type} (e : exn) : sql A := fun c => (Raise e, c).

Definition bind {A B : Type} (m : sql A) (k : A -> sql B) : sql B :=
  fun c =>
    match m c with
    | (Ok a, c') => k a c'
    | (Raise e, c') => (Raise e, c')
    end.

Notation "x <- m ;; k" := (bind m (fun x => k))
  (at level 61, m at next level, right associativity).
Notation "m ;; k" := (bind m (fun _ => k))
  (at level 61, right associativity).

(** [conn.commit()] *)
Definition commit : sql unit :=
  fun c => (Ok tt, {| committed := pending c;
                      pending := pending c;
                      total_changes := total_changes c |}).

(** [conn.total_changes] *)
Definition get_total_changes : sql nat := fun c => (Ok (total_changes c), c).

(** A read of the uncommitted state. *)
Definition query {A : Type} (f : db -> A) : sql A :=
  fun c => (Ok (f (pending c)), c).

(** A write that changes [n] rows. *)
Definition execute (f : db -> db) (n : db -> nat) : sql unit :=
  fun c => (Ok tt, {| committed := committed c;
                      pending := f (pending c);
                      total_changes := total_changes c + n (pending c) |}).

Definition open_connection (d : db) : connection :=
  {| committed := d; pending := d; total_changes := 0 |}.

(** [async with self._get_connection() as conn]: a new connection, closed
    on every exit; closing drops what was not committed. *)
Definition _get_connection {A : Type} (body : sql A) (d : db) : outcome A * db :=
  let (r, c) := body (open_connection d) in (r, committed c).

(** [with sqlite3.connect(self.db_path) as conn]: commits when the block
    ends normally, rolls back when it raises. *)
Definition sqlite3_connect {A : Type} (body : sql A) (d : db) : outcome A * db :=
  match body (open_connection d) with
  | (Ok a, c) => (Ok a, pending c)
  | (Raise e, c) => (Raise e, committed c)
  end.

(* ------------------------------------------------------------------ *)
(** ** Process tracker *)

(** The row [INSERT INTO summary_processes (meeting_id, status, created_at,
    updated_at, start_time)] builds: the columns it does not name take the
    defaults of the schema. *)
Definition new_process (meeting_id status created_at updated_at start_time : string)
  : SummaryProcesses.row :=
  {| SummaryProcesses.meeting_id := meeting_id;
     SummaryProcesses.status := status;
     SummaryProcesses.created_at := created_at;
     SummaryProcesses.updated_at := updated_at;
     SummaryProcesses.error := None;
     SummaryProcesses.result := None;
     SummaryProcesses.start_time := Some start_time;
     SummaryProcesses.end_time := None;
     SummaryProcesses.chunk_count := Some 0%Z;
     SummaryProcesses.processing_time := Some 0%float;
     SummaryProcesses.metadata := None |}.

(** One [column = ?] of an UPDATE of summary_processes, with the value
    bound to it. *)
Inductive assignment : Type :=
| Set_status (v : string)
| Set_updated_at (v : string)
| Set_start_time (v : string)
| Set_error (v : option string)
| Set_result (v : option string)
| Set_chunk_count (v : Z)
| Set_processing_time (v : float)
| Set_metadata (v : string)
| Set_end_time (v : string).

Definition assign (a : assignment) (r : SummaryProcesses.row) : SummaryProcesses.row :=
  let mk st up er re sta en cc pt md :=
    {| SummaryProcesses.meeting_id := SummaryProcesses.meeting_id r;
       SummaryProcesses.status := st;
       SummaryProcesses.created_at := SummaryProcesses.created_at r;
       SummaryProcesses.updated_at := up;
       SummaryProcesses.error := er;
       SummaryProcesses.result := re;
       SummaryProcesses.start_time := sta;
       SummaryProcesses.end_time := en;
       SummaryProcesses.chunk_count := cc;
       SummaryProcesses.processing_time := pt;
       SummaryProcesses.metadata := md |} in
  let st := SummaryProcesses.status r in
  let up := SummaryProcesses.updated_at r in
  let er := SummaryProcesses.error r in
  let re := SummaryProcesses.result r in
  let sta := SummaryProcesses.start_time r in
  let en := SummaryProcesses.end_time r in
  let cc := SummaryProcesses.chunk_count r in
  let pt := SummaryProcesses.processing_time r in
  let md := SummaryProcesses.metadata r in
  match a with
  | Set_status v => mk v up er re sta en cc pt md
  | Set_updated_at v => mk st v er re sta en cc pt md
  | Set_start_time v => mk st up er re (Some v) en cc pt md
  | Set_error v => mk st up v re sta en cc pt md
  | Set_result v => mk st up er v sta en cc pt md
  | Set_chunk_count v => mk st up er re sta en (Some v) pt md
  | Set_processing_time v => mk st up er re sta en cc (bind_real v) md
  | Set_metadata v => mk st up er re sta en cc pt (Some v)
  | Set_end_time v => mk st up er re sta (Some v) cc pt md
  end.

(** The SET clause: its assignments, left to right. *)
Definition assign_all (fields : list assignment) (r : SummaryProcesses.row)
  : SummaryProcesses.row :=
  fold_left (fun r a => assign a r) fields r.

Definition process_of (meeting_id : string) (r : SummaryProcesses.row) : bool :=
  SummaryProcesses.meeting_id r =? meeting_id.

(** Whether the driver accepts the value of an assignment as a
    parameter. *)
Definition binds (a : assignment) : bool :=
  match a with
  | Set_chunk_count v => fits_int64 v
  | _ => true
  end.

(** [UPDATE summary_processes SET fields WHERE meeting_id = ?]: the
    parameters are bound first, then the statement runs. *)
Definition update_summary_processes (fields : list assignment) (meeting_id : string)
  : sql unit :=
  if forallb binds fields
  then
    execute
      (fun d => set_summary_processes
                  (sql_update (process_of meeting_id) (assign_all fields)
                     (summary_processes d)) d)
      (fun d => sql_rowcount (process_of meeting_id) (summary_processes d))
  else raise overflow.

(** [INSERT INTO summary_processes (...) VALUES (...)] *)
Definition insert_summary_process (r : SummaryProcesses.row) : sql unit :=
  fun c =>
    match sql_insert (process_of (SummaryProcesses.meeting_id r)) r
            (summary_processes (pending c)) with
    | Some t => execute (set_summary_processes t) (fun _ => 1) c
    | None =>
        (Raise (IntegrityError
                  "UNIQUE constraint failed: summary_processes.meeting_id"), c)
    end.

(** [create_process]: update the row of the meeting, insert one when the
    update changed nothing, and return the meeting id. *)
Definition create_process (now : string) (meeting_id : string)
  : db -> outcome string * db :=
  _get_connection
    (update_summary_processes
       [Set_status "PENDING"; Set_updated_at now; Set_start_time now;
        Set_error None; Set_result None] meeting_id ;;
     changes <- get_total_changes ;;
     (if (changes =? 0)%nat
      then insert_summary_process
             (new_process meeting_id "PENDING" now now now)
      else ret tt) ;;
     commit ;;
     ret meeting_id).

(** [status == 'COMPLETED' or status == 'FAILED'] *)
Definition is_terminal (status : string) : bool :=
  (status =? "COMPLETED") || (status =? "FAILED").

(** The SET clause [update_process] builds from its arguments. *)
Definition update_fields (now status : string)
    (result : option Dict) (error : option string)
    (chunk_count : option Z) (processing_time : option float)
    (metadata : option Dict) : list assignment :=
  ([Set_status status; Set_updated_at now]
  ++ (match result with
      | Some d => if dict_truthy result
                  then [Set_result (Some (json_dumps (JDict d)))] else []
      | None => []
      end)
  ++ (match error with
      | Some e => if opt_str_truthy error then [Set_error (Some e)] else []
      | None => []
      end)
  ++ (match chunk_count with
      | Some n => [Set_chunk_count n]
      | None => []
      end)
  ++ (match processing_time with
      | Some t => [Set_processing_time t]
      | None => []
      end)
  ++ (match metadata with
      | Some d => if dict_truthy metadata
                  then [Set_metadata (json_dumps (JDict d))] else []
      | None => []
      end)
  ++ (if is_terminal status then [Set_end_time now] else []))%list.

(** [update_process]: one UPDATE of the row of the meeting, then commit. *)
Definition update_process (now : string) (meeting_id status : string)
    (result : option Dict) (error : option string)
    (chunk_count : option Z) (processing_time : option float)
    (metadata : option Dict) : db -> outcome unit * db :=
  _get_connection
    (update_summary_processes
       (update_fields now status result error chunk_count processing_time
          metadata) meeting_id ;;
     commit).

(* ------------------------------------------------------------------ *)
(** ** Transcript accumulation *)

Definition chunks_of (meeting_id : string) (r : TranscriptChunks.row) : bool :=
  TranscriptChunks.meeting_id r =? meeting_id.

(** [existing_text]: the stored text when there is a row and its text is
    not empty, the empty string otherwise. *)
Definition existing_text_of (row : option string) : string :=
  match row with
  | Some text => if str_truthy text then text else ""
  | None => ""
  end.

(** The text [save_transcript] stores. *)
Definition accumulate (existing_text transcript_text : string) : string :=
  if str_truthy existing_text && str_truthy transcript_text
  then existing_text ++ transcript_text
  else if str_truthy transcript_text then transcript_text else existing_text.

(** The row [INSERT OR REPLACE INTO transcript_chunks (meeting_id,
    transcript_text, model, model_name, chunk_size, overlap, created_at)]
    builds: [meeting_name] is not named and takes its default, NULL. *)
Definition new_chunks (meeting_id transcript_text model model_name : string)
    (chunk_size overlap : Z) (created_at : string) : TranscriptChunks.row :=
  {| TranscriptChunks.meeting_id := meeting_id;
     TranscriptChunks.meeting_name := None;
     TranscriptChunks.transcript_text := transcript_text;
     TranscriptChunks.model := model;
     TranscriptChunks.model_name := model_name;
     TranscriptChunks.chunk_size := Some chunk_size;
     TranscriptChunks.overlap := Some overlap;
     TranscriptChunks.created_at := created_at |}.

(** [save_transcript]: read the stored text, append the new text, and
    write the row with INSERT OR REPLACE, whose parameters are bound
    first. *)
Definition save_transcript (now : string) (meeting_id transcript_text : string)
    (model model_name : string) (chunk_size overlap : Z)
  : db -> outcome unit * db :=
  _get_connection
    (row <- query (fun d =>
              option_map TranscriptChunks.transcript_text
                (sql_fetchone (chunks_of meeting_id) (transcript_chunks d))) ;;
     let existing_text := existing_text_of row in
     let accumulated_transcript_text := accumulate existing_text transcript_text in
     (if fits_int64 chunk_size && fits_int64 overlap
      then
        execute
          (fun d => set_transcript_chunks
                      (sql_insert_or_replace (chunks_of meeting_id)
                         (new_chunks meeting_id accumulated_transcript_text
                            model model_name chunk_size overlap now)
                         (transcript_chunks d)) d)
          (fun _ => 1)
      else raise overflow) ;;
     commit).

Definition rename_meeting (title now : string) (r : Meetings.row) : Meetings.row :=
  {| Meetings.id := Meetings.id r;
     Meetings.title := title;
     Meetings.created_at := Meetings.created_at r;
     Meetings.updated_at := now |}.

Definition rename_chunks (meeting_name : string) (r : TranscriptChunks.row)
  : TranscriptChunks.row :=
  {| TranscriptChunks.meeting_id := TranscriptChunks.meeting_id r;
     TranscriptChunks.meeting_name := Some meeting_name;
     TranscriptChunks.transcript_text := TranscriptChunks.transcript_text r;
     TranscriptChunks.model := TranscriptChunks.model r;
     TranscriptChunks.model_name := TranscriptChunks.model_name r;
     TranscriptChunks.chunk_size := TranscriptChunks.chunk_size r;
     TranscriptChunks.overlap := TranscriptChunks.overlap r;
     TranscriptChunks.created_at := TranscriptChunks.created_at r |}.

Definition meeting_of (meeting_id : string) (r : Meetings.row) : bool :=
  Meetings.id r =? meeting_id.

(** [update_meeting_name]: the title in meetings and its copy in
    transcript_chunks. *)
Definition update_meeting_name (now : string) (meeting_id meeting_name : string)
  : db -> outcome unit * db :=
  _get_connection
    (execute
       (fun d => set_meetings
                   (sql_update (meeting_of meeting_id)
                      (rename_meeting meeting_name now) (meetings d)) d)
       (fun d => sql_rowcount (meeting_of meeting_id) (meetings d)) ;;
     execute
       (fun d => set_transcript_chunks
                   (sql_update (chunks_of meeting_id)
                      (rename_chunks meeting_name) (transcript_chunks d)) d)
       (fun d => sql_rowcount (chunks_of meeting_id) (transcript_chunks d)) ;;
     commit).

(** A value in a result row. *)
Inductive value : Type :=
| Null
| Text (s : string)
| Integer (z : Z).

Definition text_or_null (s : option string) : value :=
  match s with Some s => Text s | None => Null end.

Definition integer_or_null (z : option Z) : value :=
  match z with Some z => Integer z | None => Null end.

(** [t JOIN p ON on]: the pairs of rows the condition relates, in the
    order of the left table. *)
Definition sql_join {A B : Type} (on : A -> B -> bool) (ta : list A) (tb : list B)
  : list (A * B) :=
  flat_map (fun a => map (pair a) (filter (on a) tb)) ta.

(** [dict(zip([col[0] for col in cursor.description], row))] for
    [SELECT t.*, p.status, p.result]. *)
Definition transcript_data (t : TranscriptChunks.row) (p : SummaryProcesses.row)
  : list (string * value) :=
  [("meeting_id", Text (TranscriptChunks.meeting_id t));
   ("meeting_name", text_or_null (TranscriptChunks.meeting_name t));
   ("transcript_text", Text (TranscriptChunks.transcript_text t));
   ("model", Text (TranscriptChunks.model t));
   ("model_name", Text (TranscriptChunks.model_name t));
   ("chunk_size", integer_or_null (TranscriptChunks.chunk_size t));
   ("overlap", integer_or_null (TranscriptChunks.overlap t));
   ("created_at", Text (TranscriptChunks.created_at t));
   ("status", Text (SummaryProcesses.status p));
   ("result", text_or_null (SummaryProcesses.result p))].

(** The rows of the SELECT of [get_transcript_data]. *)
Definition select_transcript_data (meeting_id : string) (d : db)
  : list (TranscriptChunks.row * SummaryProcesses.row) :=
  filter (fun tp => chunks_of meeting_id (fst tp))
    (sql_join
       (fun t p => TranscriptChunks.meeting_id t =? SummaryProcesses.meeting_id p)
       (transcript_chunks d) (summary_processes d)).

(** [get_transcript_data]: the first row of the join as a dict, or None. *)
Definition get_transcript_data (meeting_id : string)
  : db -> outcome (option (list (string * value))) * db :=
  _get_connection
    (rows <- query (select_transcript_data meeting_id) ;;
     match rows with
     | (t, p) :: _ => ret (Some (transcript_data t p))
     | [] => ret None
     end).

(* ------------------------------------------------------------------ *)
(** ** Meeting registry *)

(** [INSERT INTO meetings (id, title, created_at, updated_at)] *)
Definition insert_meeting (r : Meetings.row) : sql unit :=
  fun c =>
    match sql_insert (meeting_of (Meetings.id r)) r (meetings (pending c)) with
    | Some t => execute (set_meetings t) (fun _ => 1) c
    | None => (Raise (IntegrityError "UNIQUE constraint failed: meetings.id"), c)
    end.

(** [SELECT id FROM meetings WHERE id = ? OR title = ?] *)
Definition id_or_title (meeting_id title : string) (r : Meetings.row) : bool :=
  (Meetings.id r =? meeting_id) || (Meetings.title r =? title).

(** [save_meeting]: insert the meeting unless a meeting has its id or its
    title; the exception raised in that case is logged and raised again. *)
Definition save_meeting (now : string) (meeting_id title : string)
  : db -> outcome bool * db :=
  sqlite3_connect
    (existing_meeting <- query (fun d =>
                           sql_fetchone (id_or_title meeting_id title) (meetings d)) ;;
     match existing_meeting with
     | None =>
         insert_meeting
           {| Meetings.id := meeting_id;
              Meetings.title := title;
              Meetings.created_at := now;
              Meetings.updated_at := now |}
     | Some _ =>
         raise (Exception ("Meeting with ID " ++ meeting_id ++ " already exists"))
     end ;;
     commit ;;
     ret true).

(* ------------------------------------------------------------------ *)
(** ** Settings and API keys *)

(** A database file before [_init_db]: a table that was never created is
    [None]. *)
Record dbfile : Type := {
  file_meetings : option (list Meetings.row);
  file_transcripts : option (list Transcripts.row);
  file_summary_processes : option (list SummaryProcesses.row);
  file_transcript_chunks : option (list TranscriptChunks.row);
  file_settings : option (list Settings.row)
}.

(** [CREATE TABLE IF NOT EXISTS]: an existing table keeps its rows, a new
    one is empty. *)
Definition create_table_if_not_exists {R : Type} (t : option (list R)) : list R :=
  match t with
  | Some rows => rows
  | None => []
  end.

(** The file of a database whose five tables exist. *)
Definition file_of (d : db) : dbfile :=
  {| file_meetings := Some (meetings d);
     file_transcripts := Some (transcripts d);
     file_summary_processes := Some (summary_processes d);
     file_transcript_chunks := Some (transcript_chunks d);
     file_settings := Some (settings d) |}.

(** The row [INSERT OR IGNORE INTO settings (id, provider, model,
    whisperModel)] builds: the key columns take their default, NULL. *)
Definition new_settings (id provider model whisperModel : string) : Settings.row :=
  {| Settings.id := id;
     Settings.provider := provider;
     Settings.model := model;
     Settings.whisperModel := whisperModel;
     Settings.groqApiKey := None;
     Settings.openaiApiKey := None;
     Settings.anthropicApiKey := None;
     Settings.ollamaApiKey := None |}.

Definition settings_of (id : string) (r : Settings.row) : bool :=
  Settings.id r =? id.

(** [_init_db]: create the tables that are missing, then make sure the
    settings row ['1'] exists. *)
Definition _init_db (f : dbfile) : outcome unit * db :=
  sqlite3_connect
    (_ <- query (fun d => sql_rowcount (settings_of "1") (settings d)) ;;
     execute
       (fun d => set_settings
                   (sql_insert_or_ignore (settings_of "1")
                      (new_settings "1" "openai" "gpt-4o-mini" "whisper-1")
                      (settings d)) d)
       (fun d => if existsb (settings_of "1") (settings d) then 0 else 1) ;;
     commit)
    {| meetings := create_table_if_not_exists (file_meetings f);
       transcripts := create_table_if_not_exists (file_transcripts f);
       summary_processes := create_table_if_not_exists (file_summary_processes f);
       transcript_chunks := create_table_if_not_exists (file_transcript_chunks f);
       settings := create_table_if_not_exists (file_settings f) |}.

(** The file after [n] more runs of the bootstrap. *)
Fixpoint bootstrap (n : nat) (f : dbfile) : dbfile :=
  match n with
  | O => f
  | S n' => bootstrap n' (file_of (snd (_init_db f)))
  end.

(** The four key columns of settings. *)
Inductive key_column : Type :=
| openaiApiKey
| anthropicApiKey
| groqApiKey
| ollamaApiKey.

Definition provider_list : list string := ["openai"; "claude"; "groq"; "ollama"].

(** [provider not in provider_list] *)
Definition not_in (provider : string) (l : list string) : bool :=
  negb (existsb (String.eqb provider) l).

(** The if/elif chain that picks [api_key_name]; when no branch is taken
    the name stays unbound. *)
Definition api_key_name (provider : string) : option key_column :=
  if provider =? "openai" then Some openaiApiKey
  else if provider =? "claude" then Some anthropicApiKey
  else if provider =? "groq" then Some groqApiKey
  else if provider =? "ollama" then Some ollamaApiKey
  else None.

Definition unbound_api_key_name {A : Type} : sql A :=
  raise (UnboundLocalError
           "cannot access local variable 'api_key_name' where it is not associated with a value").

(** [SELECT col FROM settings]: the value of a key column. *)
Definition key_of (col : key_column) (r : Settings.row) : option string :=
  match col with
  | openaiApiKey => Settings.openaiApiKey r
  | anthropicApiKey => Settings.anthropicApiKey r
  | groqApiKey => Settings.groqApiKey r
  | ollamaApiKey => Settings.ollamaApiKey r
  end.

(** [SET col = v] on a settings row. *)
Definition set_key (col : key_column) (v : option string) (r : Settings.row)
  : Settings.row :=
  let mk g o a l :=
    {| Settings.id := Settings.id r;
       Settings.provider := Settings.provider r;
       Settings.model := Settings.model r;
       Settings.whisperModel := Settings.whisperModel r;
       Settings.groqApiKey := g;
       Settings.openaiApiKey := o;
       Settings.anthropicApiKey := a;
       Settings.ollamaApiKey := l |} in
  let g := Settings.groqApiKey r in
  let o := Settings.openaiApiKey r in
  let a := Settings.anthropicApiKey r in
  let l := Settings.ollamaApiKey r in
  match col with
  | openaiApiKey => mk g v a l
  | anthropicApiKey => mk g o v l
  | groqApiKey => mk v o a l
  | ollamaApiKey => mk g o a v
  end.

(** [UPDATE settings SET col = v WHERE id = '1'] *)
Definition update_settings_key (col : key_column) (v : option string) : sql unit :=
  execute
    (fun d => set_settings
                (sql_update (settings_of "1") (set_key col v) (settings d)) d)
    (fun d => sql_rowcount (settings_of "1") (settings d)).

(** [save_api_key] *)
Definition save_api_key (api_key provider : string) (d : db) : outcome unit * db :=
  if not_in provider provider_list
  then (Raise (ValueError ("Invalid provider: " ++ provider)), d)
  else
    _get_connection
      (match api_key_name provider with
       | Some col => update_settings_key col (Some api_key) ;; commit
       | None => unbound_api_key_name
       end) d.

(** [row[0] if row and row[0] else None] *)
Definition first_if_truthy (row : option (option string)) : option string :=
  match row with
  | Some (Some s) => if str_truthy s then Some s else None
  | _ => None
  end.

(** [get_api_key] *)
Definition get_api_key (provider : string) (d : db) : outcome (option string) * db :=
  if not_in provider provider_list
  then (Raise (ValueError ("Invalid provider: " ++ provider)), d)
  else
    _get_connection
      (match api_key_name provider with
       | Some col =>
           row <- query (fun d =>
                    option_map (key_of col)
                      (sql_fetchone (settings_of "1") (settings d))) ;;
           ret (first_if_truthy row)
       | None => unbound_api_key_name
       end) d.

(** [delete_api_key] *)
Definition delete_api_key (provider : string) (d : db) : outcome unit * db :=
  if not_in provider provider_list
  then (Raise (ValueError ("Invalid provider: " ++ provider)), d)
  else
    _get_connection
      (match api_key_name provider with
       | Some col => update_settings_key col None ;; commit
       | None => unbound_api_key_name
       end) d.

(* ------------------------------------------------------------------ *)
(** ** The other operations of [DatabaseManager] *)

(** [try: body except Exception as e: handler]: on a connection or on the
    database. *)
Definition try_except {S A : Type} (body : S -> outcome A * S)
    (handler : exn -> S -> outcome A * S) : S -> outcome A * S :=
  fun s =>
    match body s with
    | (Ok a, s') => (Ok a, s')
    | (Raise e, s') => handler e s'
    end.

(** [DELETE FROM t WHERE w]: the new table. *)
Definition sql_delete {R : Type} (w : R -> bool) (t : list R) : list R :=
  filter (fun r => negb (w r)) t.

(** A write whose cursor is kept: the result is [cursor.rowcount]. *)
Definition execute_cursor (f : db -> db) (n : db -> nat) : sql nat :=
  fun c => (Ok (n (pending c)),
            {| committed := committed c;
               pending := f (pending c);
               total_changes := total_changes c + n (pending c) |}).

Definition set_transcripts (t : list Transcripts.row) (d : db) : db :=
  {| meetings := meetings d;
     transcripts := t;
     summary_processes := summary_processes d;
     transcript_chunks := transcript_chunks d;
     settings := settings d |}.

(** [update_meeting_title]: the title in meetings only. *)
Definition update_meeting_title (now : string) (meeting_id new_title : string)
  : db -> outcome unit * db :=
  _get_connection
    (execute
       (fun d => set_meetings
                   (sql_update (meeting_of meeting_id)
                      (rename_meeting new_title now) (meetings d)) d)
       (fun d => sql_rowcount (meeting_of meeting_id) (meetings d)) ;;
     commit).

(** The row [INSERT INTO transcripts (meeting_id, transcript, timestamp,
    summary, action_items, key_points)] builds.  No id is given: the column
    is a TEXT PRIMARY KEY, for which SQLite stores NULL and lets NULLs
    coexist. *)
Definition new_transcript (meeting_id transcript timestamp : string)
    (summary action_items key_points : string) : Transcripts.row :=
  {| Transcripts.id := None;
     Transcripts.meeting_id := meeting_id;
     Transcripts.transcript := transcript;
     Transcripts.timestamp := timestamp;
     Transcripts.summary := Some summary;
     Transcripts.action_items := Some action_items;
     Transcripts.key_points := Some key_points |}.

(** [save_meeting_transcript]: one more row in transcripts; an exception
    would be logged and raised again. *)
Definition save_meeting_transcript (meeting_id transcript timestamp : string)
    (summary action_items key_points : string) : db -> outcome bool * db :=
  sqlite3_connect
    (execute
       (fun d => set_transcripts
                   (transcripts d
                      ++ [new_transcript meeting_id transcript timestamp
                            summary action_items key_points])%list d)
       (fun _ => 1) ;;
     commit ;;
     ret true).

(** The dicts [get_meeting] returns. *)
Module GetMeeting.
Record transcript : Type := {
  t_id : string;
  text : string;
  timestamp : string
}.
Record meeting : Type := {
  id : string;
  title : string;
  created_at : string;
  updated_at : string;
  transcripts : list transcript
}.
End GetMeeting.

Definition transcripts_of (meeting_id : string) (r : Transcripts.row) : bool :=
  Transcripts.meeting_id r =? meeting_id.

(** [get_meeting]: the meeting with the transcripts that carry its id, each
    listed under the id of the meeting; None when there is no meeting. *)
Definition get_meeting (meeting_id : string)
  : db -> outcome (option GetMeeting.meeting) * db :=
  _get_connection
    (meeting <- query (fun d => sql_fetchone (meeting_of meeting_id) (meetings d)) ;;
     match meeting with
     | None => ret None
     | Some m =>
         rows <- query (fun d => sql_where (transcripts_of meeting_id) (transcripts d)) ;;
         ret (Some
                {| GetMeeting.id := Meetings.id m;
                   GetMeeting.title := Meetings.title m;
                   GetMeeting.created_at := Meetings.created_at m;
                   GetMeeting.updated_at := Meetings.updated_at m;
                   GetMeeting.transcripts :=
                     map (fun r =>
                            {| GetMeeting.t_id := meeting_id;
                               GetMeeting.text := Transcripts.transcript r;
                               GetMeeting.timestamp := Transcripts.timestamp r |})
                       rows |})
     end).

(** [delete_meeting]: the rows of the meeting leave the four tables; True,
    or False when a statement raised. *)
Definition delete_meeting (meeting_id : string) : db -> outcome bool * db :=
  _get_connection
    (try_except
       (execute
          (fun d => set_transcript_chunks
                      (sql_delete (chunks_of meeting_id) (transcript_chunks d)) d)
          (fun d => sql_rowcount (chunks_of meeting_id) (transcript_chunks d)) ;;
        execute
          (fun d => set_summary_processes
                      (sql_delete (process_of meeting_id) (summary_processes d)) d)
          (fun d => sql_rowcount (process_of meeting_id) (summary_processes d)) ;;
        execute
          (fun d => set_transcripts
                      (sql_delete (transcripts_of meeting_id) (transcripts d)) d)
          (fun d => sql_rowcount (transcripts_of meeting_id) (transcripts d)) ;;
        execute
          (fun d => set_meetings
                      (sql_delete (meeting_of meeting_id) (meetings d)) d)
          (fun d => sql_rowcount (meeting_of meeting_id) (meetings d)) ;;
        commit ;;
        ret true)
       (fun _ => ret false)).

(** [dict(zip(...))] for [SELECT provider, model, whisperModel]. *)
Definition model_config (r : Settings.row) : list (string * value) :=
  [("provider", Text (Settings.provider r));
   ("model", Text (Settings.model r));
   ("whisperModel", Text (Settings.whisperModel r))].

(** [get_model_config] *)
Definition get_model_config : db -> outcome (option (list (string * value))) * db :=
  _get_connection
    (row <- query (fun d => sql_fetchone (settings_of "1") (settings d)) ;;
     ret (option_map model_config row)).

Definition set_model_config (provider model whisperModel : string)
    (r : Settings.row) : Settings.row :=
  {| Settings.id := Settings.id r;
     Settings.provider := provider;
     Settings.model := model;
     Settings.whisperModel := whisperModel;
     Settings.groqApiKey := Settings.groqApiKey r;
     Settings.openaiApiKey := Settings.openaiApiKey r;
     Settings.anthropicApiKey := Settings.anthropicApiKey r;
     Settings.ollamaApiKey := Settings.ollamaApiKey r |}.

(** [INSERT INTO settings (id, provider, model, whisperModel)] *)
Definition insert_settings (r : Settings.row) : sql unit :=
  fun c =>
    match sql_insert (settings_of (Settings.id r)) r (settings (pending c)) with
    | Some t => execute (set_settings t) (fun _ => 1) c
    | None => (Raise (IntegrityError "UNIQUE constraint failed: settings.id"), c)
    end.

(** [save_model_config]: when settings has a row, whichever it is, update
    the row '1'; insert the row '1' when the table is empty. *)
Definition save_model_config (provider model whisperModel : string)
  : db -> outcome unit * db :=
  _get_connection
    (existing_config <- query (fun d => hd_error (settings d)) ;;
     match existing_config with
     | Some _ =>
         execute
           (fun d => set_settings
                       (sql_update (settings_of "1")
                          (set_model_config provider model whisperModel)
                          (settings d)) d)
           (fun d => sql_rowcount (settings_of "1") (settings d))
     | None => insert_settings (new_settings "1" provider model whisperModel)
     end ;;
     commit).

(** The three variables [sync_env_vars_to_db] reads with [os.getenv]. *)
Record environ : Type := {
  OPENAI_API_KEY : option string;
  ANTHROPIC_API_KEY : option string;
  GROQ_API_KEY : option string
}.

(** [WHERE id = '1' AND (col IS NULL OR col != ?)] *)
Definition differs (col : key_column) (v : string) (r : Settings.row) : bool :=
  settings_of "1" r
  && match key_of col r with
     | None => true
     | Some k => negb (k =? v)
     end.

(** One provider of [sync_env_vars_to_db]: when the variable is set and not
    empty, write it where the stored key differs; the result is the new
    value of [made_changes]. *)
Definition sync_key (key_env : option string) (col : key_column)
    (made_changes : bool) : sql bool :=
  match key_env with
  | Some v =>
      if opt_str_truthy key_env
      then
        rowcount <- execute_cursor
                      (fun d => set_settings
                                  (sql_update (differs col v)
                                     (set_key col (Some v)) (settings d)) d)
                      (fun d => sql_rowcount (differs col v) (settings d)) ;;
        ret (if (0 <? rowcount)%nat then true else made_changes)
      else ret made_changes
  | None => ret made_changes
  end.

(** [sync_env_vars_to_db]: OpenAI, Anthropic, Groq in that order; one commit
    when something changed; an exception is logged and dropped. *)
Definition sync_env_vars_to_db (env : environ) : db -> outcome unit * db :=
  try_except
    (_get_connection
       (made_changes <- sync_key (OPENAI_API_KEY env) openaiApiKey false ;;
        made_changes <- sync_key (ANTHROPIC_API_KEY env) anthropicApiKey
                          made_changes ;;
        made_changes <- sync_key (GROQ_API_KEY env) groqApiKey made_changes ;;
        if made_changes then commit else ret tt))
    (fun _ d => (Ok tt, d)).

(* ------------------------------------------------------------------ *)
(** ** Call sequences and schema constraints *)

(** The PRIMARY KEY constraint of a table: no two rows share the key. *)
Definition primary_key {R : Type} (key : R -> string) (t : list R) : Prop :=
  NoDup (map key t).

(** The rows of summary_processes for a meeting. *)
Definition processes_for (meeting_id : string) (d : db) : list SummaryProcesses.row :=
  sql_where (process_of meeting_id) (summary_processes d).

(** [create_process(meeting_id)] called once per clock value, in order:
    the outcomes of the calls and the database after the last one. *)
Fixpoint create_processes (nows : list string) (meeting_id : string) (d : db)
  : list (outcome string) * db :=
  match nows with
  | [] => ([], d)
  | now :: rest =>
      let (o, d1) := create_process now meeting_id d in
      let (os, d2) := create_processes rest meeting_id d1 in
      (o :: os, d2)
  end.

(** A call of the process tracker, with the clock value it reads. *)
Inductive process_call : Type :=
| Create_process (now : string)
| Update_process (now status : string) (result : option Dict)
    (error : option string) (chunk_count : option Z)
    (processing_time : option float) (metadata : option Dict).

Definition run_call (meeting_id : string) (c : process_call) (d : db) : db :=
  match c with
  | Create_process now => snd (create_process now meeting_id d)
  | Update_process now status result error chunk_count processing_time metadata =>
      snd (update_process now meeting_id status result error chunk_count
             processing_time metadata d)
  end.

(** The calls of a sequence, first to last, all for one meeting. *)
Definition run_calls (meeting_id : string) (calls : list process_call) (d : db) : db :=
  fold_left (fun d c => run_call meeting_id c d) calls d.

(** Whether the driver accepts the chunk_count of an [update_process]
    call. *)
Definition chunk_count_binds (chunk_count : option Z) : bool :=
  match chunk_count with
  | Some n => fits_int64 n
  | None => true
  end.




(** The rows of transcript_chunks for a meeting. *)
Definition chunks_for (meeting_id : string) (d : db) : list TranscriptChunks.row :=
  sql_where (chunks_of meeting_id) (transcript_chunks d).

(** The text [save_transcript] finds for a meeting: the empty string when
    the meeting has no row. *)
Definition stored_text (meeting_id : string) (d : db) : string :=
  existing_text_of
    (option_map TranscriptChunks.transcript_text
       (sql_fetchone (chunks_of meeting_id) (transcript_chunks d))).

(** The rows of settings with a given id. *)
Definition settings_for (id : string) (rows : list Settings.row) : list Settings.row :=
  sql_where (settings_of id) rows.

(** [r'] is [r] with at most the key column [col] rewritten: to [v] when
    [r] is the row ['1'], not at all otherwise. *)
Definition only_key_written (col : key_column) (v : option string)
    (r r' : Settings.row) : Prop :=
  Settings.id r' = Settings.id r
  /\ Settings.provider r' = Settings.provider r
  /\ Settings.model r' = Settings.model r
  /\ Settings.whisperModel r' = Settings.whisperModel r
  /\ (forall c, c <> col -> key_of c r' = key_of c r)
  /\ key_of col r' = if settings_of "1" r then v else key_of col r.

(** The arguments of one [save_transcript] call, with its clock value. *)
Record transcript_call : Type := {
  call_now : string;
  call_text : string;
  call_model : string;
  call_model_name : string;
  call_chunk_size : Z;
  call_overlap : Z
}.

(** Whether the driver accepts the integers of a call. *)
Definition accepted (c : transcript_call) : bool :=
  fits_int64 (call_chunk_size c) && fits_int64 (call_overlap c).

(** [save_transcript] called once per element, in order, for one meeting. *)
Definition save_transcripts (meeting_id : string) (calls : list transcript_call)
    (d : db) : db :=
  fold_left
    (fun d c =>
       snd (save_transcript (call_now c) meeting_id (call_text c) (call_model c)
              (call_model_name c) (call_chunk_size c) (call_overlap c) d))
    calls d.

(** [data.get(key)] on a result dict. *)
Fixpoint dict_get (key : string) (data : list (string * value)) : option value :=
  match data with
  | [] => None
  | (k, v) :: rest => if k =? key then Some v else dict_get key rest
  end.

(** What [get_api_key] returns for a key column: the key of the settings
    row '1' when there is such a row and the key is neither NULL nor
    empty. *)
Definition stored_key (col : key_column) (d : db) : option string :=
  first_if_truthy
    (option_map (key_of col) (sql_fetchone (settings_of "1") (settings d))).

(** The variable [sync_env_vars_to_db] reads for a provider; there is none
    for ollama. *)
Definition env_var (provider : string) (env : environ) : option string :=
  if provider =? "openai" then OPENAI_API_KEY env
  else if provider =? "claude" then ANTHROPIC_API_KEY env
  else if provider =? "groq" then GROQ_API_KEY env
  else None.

(** A settings row with the key of one variable written in, when the
    variable is set and not empty. *)
Definition with_env_key (key_env : option string) (col : key_column)
    (r : Settings.row) : Settings.row :=
  match key_env with
  | Some v => if str_truthy v then set_key col (Some v) r else r
  | None => r
  end.

(** The database after the UPDATE for one variable. *)
Definition sync_one (key_env : option string) (col : key_column) (d : db) : db :=
  set_settings
    (sql_update (settings_of "1") (with_env_key key_env col) (settings d)) d.

(** A settings row after a sync with the environment. *)
Definition synced (env : environ) (r : Settings.row) : Settings.row :=
  with_env_key (GROQ_API_KEY env) groqApiKey
    (with_env_key (ANTHROPIC_API_KEY env) anthropicApiKey
       (with_env_key (OPENAI_API_KEY env) openaiApiKey r)).

(** A call of any operation of [DatabaseManager] modelled here, with its
    arguments and the clock value it reads. *)
Inductive operation : Type :=
| Call_create_process (now meeting_id : string)
| Call_update_process (now meeting_id status : string) (result : option Dict)
    (error : option string) (chunk_count : option Z)
    (processing_time : option float) (metadata : option Dict)
| Call_save_transcript (now meeting_id transcript_text model model_name : string)
    (chunk_size overlap : Z)
| Call_update_meeting_name (now meeting_id meeting_name : string)
| Call_get_transcript_data (meeting_id : string)
| Call_save_meeting (now meeting_id title : string)
| Call_save_meeting_transcript (meeting_id transcript timestamp : string)
    (summary action_items key_points : string)
| Call_get_meeting (meeting_id : string)
| Call_update_meeting_title (now meeting_id new_title : string)
| Call_delete_meeting (meeting_id : string)
| Call_get_model_config
| Call_save_model_config (provider model whisperModel : string)
| Call_save_api_key (api_key provider : string)
| Call_get_api_key (provider : string)
| Call_delete_api_key (provider : string)
| Call_sync_env_vars_to_db (env : environ).

(** The exception a call ended with, if any, and the database it left. *)
Definition raised {A : Type} (r : outcome A * db) : option exn * db :=
  (match fst r with
   | Ok _ => None
   | Raise e => Some e
   end, snd r).

Definition run_operation (o : operation) (d : db) : option exn * db :=
  match o with
  | Call_create_process now meeting_id => raised (create_process now meeting_id d)
  | Call_update_process now meeting_id status result error chunk_count
      processing_time metadata =>
      raised (update_process now meeting_id status result error chunk_count
                processing_time metadata d)
  | Call_save_transcript now meeting_id transcript_text model model_name
      chunk_size overlap =>
      raised (save_transcript now meeting_id transcript_text model model_name
                chunk_size overlap d)
  | Call_update_meeting_name now meeting_id meeting_name =>
      raised (update_meeting_name now meeting_id meeting_name d)
  | Call_get_transcript_data meeting_id => raised (get_transcript_data meeting_id d)
  | Call_save_meeting now meeting_id title =>
      raised (save_meeting now meeting_id title d)
  | Call_save_meeting_transcript meeting_id transcript timestamp summary
      action_items key_points =>
      raised (save_meeting_transcript meeting_id transcript timestamp summary
                action_items key_points d)
  | Call_get_meeting meeting_id => raised (get_meeting meeting_id d)
  | Call_update_meeting_title now meeting_id new_title =>
      raised (update_meeting_title now meeting_id new_title d)
  | Call_delete_meeting meeting_id => raised (delete_meeting meeting_id d)
  | Call_get_model_config => raised (get_model_config d)
  | Call_save_model_config provider model whisperModel =>
      raised (save_model_config provider model whisperModel d)
  | Call_save_api_key api_key provider => raised (save_api_key api_key provider d)
  | Call_get_api_key provider => raised (get_api_key provider d)
  | Call_delete_api_key provider => raised (delete_api_key provider d)
  | Call_sync_env_vars_to_db env => raised (sync_env_vars_to_db env d)
  end.

(** The database after a sequence of calls, first to last. *)
Definition run_operations (ops : list operation) (d : db) : db :=
  fold_left (fun d o => snd (run_operation o d)) ops d.

(** The four PRIMARY KEY constraints that a row can violate (the ids of
    transcripts are all NULL). *)
Definition well_keyed (d : db) : Prop :=
  primary_key Meetings.id (meetings d)
  /\ primary_key SummaryProcesses.meeting_id (summary_processes d)
  /\ primary_key TranscriptChunks.meeting_id (transcript_chunks d)
  /\ primary_key Settings.id (settings d).

(* ------------------------------------------------------------------ *)
(** ** Sample data *)

(** The database [_init_db] leaves on a new file, before its settings row
    is inserted. *)
Definition empty_db : db :=
  {| meetings := [];
     transcripts := [];
     summary_processes := [];
     transcript_chunks := [];
     settings := [] |}.


(** The process row of m1 after a failed run. *)
Definition failed_m1 : SummaryProcesses.row :=
  {| SummaryProcesses.meeting_id := "m1";
     SummaryProcesses.status := "FAILED";
     SummaryProcesses.created_at := "t0";
     SummaryProcesses.updated_at := "t1";
     SummaryProcesses.error := Some "boom";
     SummaryProcesses.result := None;
     SummaryProcesses.start_time := Some "t0";
     SummaryProcesses.end_time := Some "t1";
     SummaryProcesses.chunk_count := Some 0%Z;
     SummaryProcesses.processing_time := Some 0%float;
     SummaryProcesses.metadata := None |}.

Definition db_m1_failed : db :=
  set_summary_processes [failed_m1] empty_db.


(** A run to completion followed by a restart. *)
Definition restart_after_completion : list process_call :=
  [Create_process "t1";
   Update_process "t2" "COMPLETED" (Some [("summary", JStr "ok")]) None None
     None None;
   Create_process "t3"].

(** Meeting m1 is created, receives a first chunk and is renamed. *)
Definition db_m1_renamed : db :=
  let d := snd (save_meeting "t0" "m1" "Standup" empty_db) in
  let d := snd (save_transcript "t1" "m1" "<p>hello</p>" "gpt-4o-mini"
                  "gpt-4o-mini" 1000 100 d) in
  snd (update_meeting_name "t2" "m1" "Weekly" d).

(** The settings row of a user who chose another provider and saved two
    keys. *)
Definition custom_settings : Settings.row :=
  {| Settings.id := "1";
     Settings.provider := "claude";
     Settings.model := "claude-3-5-sonnet";
     Settings.whisperModel := "large-v3";
     Settings.groqApiKey := Some "gsk-1";
     Settings.openaiApiKey := None;
     Settings.anthropicApiKey := Some "sk-ant-1";
     Settings.ollamaApiKey := None |}.

Definition db_custom_settings : db := set_settings [custom_settings] empty_db.

(** A new database file: no table was created yet. *)
Definition new_file : dbfile :=
  {| file_meetings := None;
     file_transcripts := None;
     file_summary_processes := None;
     file_transcript_chunks := None;
     file_settings := None |}.

(** Three chunks streamed for one meeting. *)
Definition three_chunks : list transcript_call :=
  [{| call_now := "t1"; call_text := "<p>a</p>"; call_model := "openai";
      call_model_name := "gpt-4o-mini"; call_chunk_size := 1000;
      call_overlap := 100 |};
   {| call_now := "t2"; call_text := ""; call_model := "openai";
      call_model_name := "gpt-4o-mini"; call_chunk_size := 1000;
      call_overlap := 100 |};
   {| call_now := "t3"; call_text := "<p>c</p>"; call_model := "claude";
      call_model_name := "sonnet"; call_chunk_size := 500;
      call_overlap := 50 |}].

(** Meeting m1 with a first chunk and a pending process. *)
Definition db_m1_ready : db :=
  let d := snd (save_meeting "t0" "m1" "Standup" empty_db) in
  let d := snd (save_transcript "t1" "m1" "<p>hello</p>" "gpt-4o-mini"
                  "gpt-4o-mini" 1000 100 d) in
  snd (create_process "t2" "m1" d).

(** Two keys in the environment, the third variable unset. *)
Definition two_keys_env : environ :=
  {| OPENAI_API_KEY := Some "sk-env";
     ANTHROPIC_API_KEY := None;
     GROQ_API_KEY := Some "gsk-env" |}.

(** A session that touches every table. *)
Definition busy_session : list operation :=
  [Call_save_meeting "t0" "m1" "Standup";
   Call_save_meeting "t1" "m1" "Standup";
   Call_save_transcript "t2" "m1" "<p>hello</p>" "openai" "gpt-4o-mini" 1000 100;
   Call_create_process "t3" "m1";
   Call_update_process "t4" "m1" "COMPLETED" (Some [("summary", JStr "ok")])
     None (Some 1%Z) None None;
   Call_save_api_key "sk-123" "azure";
   Call_save_api_key "sk-123" "openai";
   Call_save_model_config "claude" "sonnet" "whisper-1";
   Call_sync_env_vars_to_db two_keys_env;
   Call_update_meeting_name "t5" "m1" "Weekly";
   Call_create_process "t6" "m1";
   Call_delete_meeting "m1"].

(* ------------------------------------------------------------------ *)
(** * Properties *)

(** ** Statements on tables *)

Section SqlFacts.
Context {R : Type}.
Implicit Types (w : R -> bool) (t : list R).

Lemma sql_update_none w (f : R -> R) t :
  (forall r, In r t -> w r = false) -> sql_update w f t = t.
Proof.
  unfold sql_update. induction t as [|x t IH]; intros Hno; simpl.
  - reflexivity.
  - rewrite (Hno x (or_introl eq_refl)). f_equal.
    apply IH. intros r Hr. apply Hno. now right.
Qed.

Lemma sql_where_none w t :
  (forall r, In r t -> w r = false) -> sql_where w t = [].
Proof.
  unfold sql_where. induction t as [|x t IH]; intros Hno; simpl.
  - reflexivity.
  - rewrite (Hno x (or_introl eq_refl)).
    apply IH. intros r Hr. apply Hno. now right.
Qed.


Lemma sql_rowcount_zero w t :
  sql_rowcount w t = 0 -> forall r, In r t -> w r = false.
Proof.
  unfold sql_rowcount, sql_where.
  induction t as [|x t IH]; simpl; intros Hz r Hr.
  - contradiction.
  - destruct (w x) eqn:Hx; simpl in Hz; [discriminate|].
    destruct Hr as [->|Hr]; [assumption|]. now apply IH.
Qed.

Lemma existsb_none w t :
  (forall r, In r t -> w r = false) -> existsb w t = false.
Proof.
  induction t as [|x t IH]; intros Hno; simpl.
  - reflexivity.
  - rewrite (Hno x (or_introl eq_refl)). simpl.
    apply IH. intros r Hr. apply Hno. now right.
Qed.

End SqlFacts.


Lemma fits_int64_range z :
  fits_int64 z = true <-> (- 2 ^ 63 <= z <= 2 ^ 63 - 1)%Z.
Proof. unfold fits_int64. rewrite andb_true_iff, !Z.leb_le. reflexivity. Qed.

Lemma fits_int64_outside z :
  fits_int64 z = false <-> (z < - 2 ^ 63 \/ 2 ^ 63 - 1 < z)%Z.
Proof.
  unfold fits_int64. rewrite andb_false_iff, !Z.leb_gt. reflexivity.
Qed.

(** Of the parameters [update_process] binds only chunk_count can be
    refused. *)
Lemma update_fields_bind now status result error chunk_count processing_time
    metadata :
  forallb binds
    (update_fields now status result error chunk_count processing_time metadata)
  = chunk_count_binds chunk_count.
Proof.
  unfold update_fields.
  destruct result as [[|? ?]|], error as [[|? ?]|], chunk_count as [?|],
    processing_time as [?|], metadata as [[|? ?]|], (is_terminal status);
    cbn; rewrite ?andb_true_r; reflexivity.
Qed.

(** What [update_process] leaves behind: nothing when the driver refuses
    chunk_count, the UPDATE otherwise. *)
Lemma update_process_run now meeting_id status result error chunk_count
    processing_time metadata d :
  update_process now meeting_id status result error chunk_count
    processing_time metadata d
  = if chunk_count_binds chunk_count
    then (Ok tt,
          set_summary_processes
            (sql_update (process_of meeting_id)
               (assign_all
                  (update_fields now status result error chunk_count
                     processing_time metadata))
               (summary_processes d)) d)
    else (Raise overflow, d).
Proof.
  unfold update_process, update_summary_processes.
  rewrite update_fields_bind.
  now destruct (chunk_count_binds chunk_count).
Qed.

(** ** update_process without a row *)






(** ** create_process *)

Lemma assign_meeting_id a r :
  SummaryProcesses.meeting_id (assign a r) = SummaryProcesses.meeting_id r.
Proof. now destruct a. Qed.

Lemma assign_all_meeting_id fields r :
  SummaryProcesses.meeting_id (assign_all fields r) = SummaryProcesses.meeting_id r.
Proof.
  unfold assign_all. revert r.
  induction fields as [|a fields IH]; intros r; simpl.
  - reflexivity.
  - now rewrite IH, assign_meeting_id.
Qed.

Lemma update_keeps_keys fields meeting_id t :
  map SummaryProcesses.meeting_id
    (sql_update (process_of meeting_id) (assign_all fields) t)
  = map SummaryProcesses.meeting_id t.
Proof.
  unfold sql_update. rewrite map_map. apply map_ext. intros r.
  destruct (process_of meeting_id r); [apply assign_all_meeting_id|reflexivity].
Qed.

Lemma where_update fields meeting_id t :
  sql_where (process_of meeting_id)
    (sql_update (process_of meeting_id) (assign_all fields) t)
  = map (assign_all fields) (sql_where (process_of meeting_id) t).
Proof.
  unfold sql_where, sql_update.
  induction t as [|r t IH]; simpl; [reflexivity|].
  destruct (process_of meeting_id r) eqn:Hr; simpl.
  - unfold process_of in *. rewrite assign_all_meeting_id, Hr. simpl. now f_equal.
  - rewrite Hr. exact IH.
Qed.

(** Under the primary key a meeting has at most one process row. *)
Lemma primary_key_at_most_one meeting_id t :
  primary_key SummaryProcesses.meeting_id t ->
  sql_where (process_of meeting_id) t = []
  \/ exists r, sql_where (process_of meeting_id) t = [r].
Proof.
  unfold primary_key, sql_where.
  induction t as [|x t IH]; simpl; intros Hk.
  - now left.
  - inversion Hk as [|? ? Hnotin Hk']; subst.
    destruct (process_of meeting_id x) eqn:Hx.
    + right. exists x. f_equal.
      apply (sql_where_none (process_of meeting_id) t).
      intros r Hr. unfold process_of in *.
      apply String.eqb_eq in Hx. apply String.eqb_neq. intros Heq.
      apply Hnotin. rewrite Hx, <- Heq. now apply in_map.
    + now apply IH.
Qed.

(** The two branches of [create_process]. *)
Lemma create_process_run now meeting_id d :
  create_process now meeting_id d
  = (Ok meeting_id,
     if (sql_rowcount (process_of meeting_id) (summary_processes d) =? 0)%nat
     then set_summary_processes
            (summary_processes d
               ++ [new_process meeting_id "PENDING" now now now])%list d
     else set_summary_processes
            (sql_update (process_of meeting_id)
               (assign_all [Set_status "PENDING"; Set_updated_at now;
                            Set_start_time now; Set_error None; Set_result None])
               (summary_processes d)) d).
Proof.
  unfold create_process, _get_connection, bind, update_summary_processes,
    get_total_changes, execute, open_connection. simpl.
  destruct (sql_rowcount (process_of meeting_id) (summary_processes d) =? 0)%nat
    eqn:Hcount.
  - apply Nat.eqb_eq in Hcount.
    pose proof (sql_rowcount_zero _ _ Hcount) as Hnone.
    unfold insert_summary_process, sql_insert. simpl.
    rewrite (sql_update_none _ _ _ Hnone).
    rewrite (existsb_none _ _ Hnone). simpl.
    now destruct d.
  - simpl. now destruct d.
Qed.

(** One call: it returns the meeting id, keeps the primary key, and leaves
    one pending row for the meeting, stamped with the clock of the call and
    keeping the creation time of the row it found. *)
Lemma create_process_step now meeting_id d :
  primary_key SummaryProcesses.meeting_id (summary_processes d) ->
  fst (create_process now meeting_id d) = Ok meeting_id
  /\ primary_key SummaryProcesses.meeting_id
       (summary_processes (snd (create_process now meeting_id d)))
  /\ exists r',
       processes_for meeting_id (snd (create_process now meeting_id d)) = [r']
       /\ SummaryProcesses.status r' = "PENDING"
       /\ SummaryProcesses.error r' = None
       /\ SummaryProcesses.result r' = None
       /\ SummaryProcesses.updated_at r' = now
       /\ SummaryProcesses.start_time r' = Some now
       /\ SummaryProcesses.created_at r'
          = match processes_for meeting_id d with
            | r :: _ => SummaryProcesses.created_at r
            | [] => now
            end.
Proof.
  intros Hkey. rewrite create_process_run. simpl.
  split; [reflexivity|].
  unfold processes_for.
  destruct (sql_rowcount (process_of meeting_id) (summary_processes d) =? 0)%nat
    eqn:Hcount.
  - apply Nat.eqb_eq in Hcount.
    pose proof (sql_rowcount_zero _ _ Hcount) as Hnone.
    destruct d as [ms ts ps cs ss]; simpl in *.
    split.
    + unfold primary_key in *. rewrite map_app. simpl.
      apply NoDup_app; [assumption|repeat constructor; intros []|].
      intros k Hin [<-|[]].
      apply in_map_iff in Hin. destruct Hin as (r & Hr & Hin).
      specialize (Hnone r Hin). unfold process_of in Hnone.
      apply String.eqb_neq in Hnone. congruence.
    + exists (new_process meeting_id "PENDING" now now now).
      unfold sql_where. rewrite filter_app.
      fold (sql_where (process_of meeting_id) ps).
      rewrite (sql_where_none _ _ Hnone). simpl.
      unfold process_of. simpl. rewrite String.eqb_refl.
      repeat split; reflexivity.
  - destruct d as [ms ts ps cs ss]; simpl in *.
    split.
    + unfold primary_key in *. now rewrite update_keeps_keys.
    + rewrite where_update.
      destruct (primary_key_at_most_one meeting_id ps Hkey) as [Hno|(r & Hr)].
      * unfold sql_rowcount in Hcount. rewrite Hno in Hcount. discriminate.
      * rewrite Hr. simpl. eexists. split; [reflexivity|].
        repeat split; reflexivity.
Qed.

(** A sequence of calls, with the times the surviving row carries. *)
Lemma create_processes_spec nows meeting_id :
  forall d,
    primary_key SummaryProcesses.meeting_id (summary_processes d) ->
    nows <> [] ->
    Forall (fun o => o = Ok meeting_id) (fst (create_processes nows meeting_id d))
    /\ length (fst (create_processes nows meeting_id d)) = length nows
    /\ exists r,
         processes_for meeting_id (snd (create_processes nows meeting_id d)) = [r]
         /\ SummaryProcesses.status r = "PENDING"
         /\ SummaryProcesses.error r = None
         /\ SummaryProcesses.result r = None
         /\ SummaryProcesses.updated_at r = last nows ""
         /\ SummaryProcesses.start_time r = Some (last nows "")
         /\ SummaryProcesses.created_at r
            = match processes_for meeting_id d with
              | r0 :: _ => SummaryProcesses.created_at r0
              | [] => hd "" nows
              end.
Proof.
  induction nows as [|now rest IH]; intros d Hkey Hne; [congruence|].
  destruct (create_process_step now meeting_id d Hkey)
    as (Hout & Hkey1 & r1 & Hr1 & Hst & Herr & Hres & Hup & Hsta & Hcr).
  simpl.
  destruct (create_process now meeting_id d) as [o d1] eqn:Hcall.
  simpl in Hout, Hkey1, Hr1. subst o.
  destruct rest as [|now2 rest].
  - simpl. split; [repeat constructor|]. split; [reflexivity|].
    exists r1. repeat split; assumption.
  - assert (Hne2 : now2 :: rest <> []) by discriminate.
    destruct (IH d1 Hkey1 Hne2)
      as (Houts & Hlen & r & Hr & Hst' & Herr' & Hres' & Hup' & Hsta' & Hcr').
    destruct (create_processes (now2 :: rest) meeting_id d1) as [os d2] eqn:Hrest.
    simpl in Houts, Hlen, Hr |- *.
    split; [now constructor|]. split; [now rewrite Hlen|].
    exists r. repeat split; try assumption.
    rewrite Hcr', Hr1, Hcr. reflexivity.
Qed.

(** C4.  After any non-empty sequence of [create_process] calls for a
    meeting, every call has returned the meeting id and summary_processes
    holds exactly one row for the meeting, with status PENDING and error and
    result null; a call that finds a row leaves it with its created_at, and
    with updated_at and start_time set to the clock of the call. *)
Theorem create_process_single_pending_row :
  forall nows meeting_id d,
    primary_key SummaryProcesses.meeting_id (summary_processes d) ->
    nows <> [] ->
    Forall (fun o => o = Ok meeting_id) (fst (create_processes nows meeting_id d))
    /\ length (fst (create_processes nows meeting_id d)) = length nows
    /\ (exists r,
          processes_for meeting_id (snd (create_processes nows meeting_id d)) = [r]
          /\ SummaryProcesses.status r = "PENDING"
          /\ SummaryProcesses.error r = None
          /\ SummaryProcesses.result r = None)
    /\ (forall now r0,
          processes_for meeting_id d = [r0] ->
          exists r',
            processes_for meeting_id (snd (create_process now meeting_id d)) = [r']
            /\ SummaryProcesses.created_at r' = SummaryProcesses.created_at r0
            /\ SummaryProcesses.updated_at r' = now
            /\ SummaryProcesses.start_time r' = Some now).
Proof.
  intros nows meeting_id d Hkey Hne.
  destruct (create_processes_spec nows meeting_id d Hkey Hne)
    as (Houts & Hlen & r & Hr & Hst & Herr & Hres & _).
  repeat split; try assumption.
  - exists r. repeat split; assumption.
  - intros now r0 Hr0.
    destruct (create_process_step now meeting_id d Hkey)
      as (_ & _ & r' & Hr' & _ & _ & _ & Hup & Hsta & Hcr).
    exists r'. rewrite Hr0 in Hcr. repeat split; assumption.
Qed.

(** ** update_process on an existing row *)




(** Rows of other meetings are not touched by an UPDATE of one meeting. *)
Lemma others_update fields meeting_id t :
  sql_where (fun r => negb (process_of meeting_id r))
    (sql_update (process_of meeting_id) (assign_all fields) t)
  = sql_where (fun r => negb (process_of meeting_id r)) t.
Proof.
  unfold sql_where, sql_update.
  induction t as [|r t IH]; simpl; [reflexivity|].
  destruct (process_of meeting_id r) eqn:Hr; simpl.
  - unfold process_of in *. rewrite assign_all_meeting_id, Hr. simpl. exact IH.
  - rewrite Hr. simpl. now f_equal.
Qed.


(** X23.  The rest of the database under [update_process]: the rows of
    other meetings and the other four tables stay as they were. *)
Lemma update_process_frame now meeting_id status result error chunk_count
    processing_time metadata d :
  let d' := snd (update_process now meeting_id status result error chunk_count
                   processing_time metadata d) in
  sql_where (fun r => negb (process_of meeting_id r)) (summary_processes d')
  = sql_where (fun r => negb (process_of meeting_id r)) (summary_processes d)
  /\ meetings d' = meetings d
  /\ transcripts d' = transcripts d
  /\ transcript_chunks d' = transcript_chunks d
  /\ settings d' = settings d.
Proof.
  rewrite update_process_run.
  destruct (chunk_count_binds chunk_count); simpl; [|repeat split].
  split; [apply others_update|repeat split].
Qed.



(** ** end_time over call sequences *)


Lemma processes_for_create now meeting_id d :
  processes_for meeting_id (snd (create_process now meeting_id d))
  = match processes_for meeting_id d with
    | [] => [new_process meeting_id "PENDING" now now now]
    | rows =>
        map (assign_all [Set_status "PENDING"; Set_updated_at now;
                         Set_start_time now; Set_error None; Set_result None])
          rows
    end.
Proof.
  rewrite create_process_run. unfold processes_for, sql_rowcount.
  destruct d as [ms ts ps cs ss]; simpl.
  destruct (sql_where (process_of meeting_id) ps) as [|r rows] eqn:Hrows; simpl.
  - unfold sql_where in *. rewrite filter_app, Hrows. simpl.
    unfold process_of. simpl. now rewrite String.eqb_refl.
  - now rewrite where_update, Hrows.
Qed.







(** The same after a restart: [create_process] on the completed row makes
    it PENDING and keeps its end_time. *)
Example restart_keeps_end_time :
  exists r,
    processes_for "m1" (run_calls "m1" restart_after_completion empty_db) = [r]
    /\ SummaryProcesses.status r = "PENDING"
    /\ SummaryProcesses.start_time r = Some "t3"
    /\ SummaryProcesses.end_time r = Some "t2".
Proof.
  eexists. split; [vm_compute; reflexivity|]. repeat split.
Qed.

Lemma create_process_single_pending_row_witness :
  primary_key SummaryProcesses.meeting_id (summary_processes db_m1_failed)
  /\ ["t2"; "t3"] <> []
  /\ exists r,
       processes_for "m1" (snd (create_processes ["t2"; "t3"] "m1" db_m1_failed))
       = [r]
       /\ SummaryProcesses.status r = "PENDING"
       /\ SummaryProcesses.error r = None
       /\ SummaryProcesses.result r = None.
Proof.
  assert (Hkey : primary_key SummaryProcesses.meeting_id
                   (summary_processes db_m1_failed)).
  { unfold primary_key. simpl. constructor; [intros []|constructor]. }
  assert (Hne : ["t2"; "t3"] <> []) by discriminate.
  split; [exact Hkey|]. split; [exact Hne|].
  exact (proj1 (proj2 (proj2
           (create_process_single_pending_row ["t2"; "t3"] "m1" db_m1_failed
              Hkey Hne)))).
Defined.

(** ** save_transcript *)

Lemma append_empty_r (s : string) : s ++ "" = s.
Proof. induction s as [|c s IH]; simpl; [reflexivity|now rewrite IH]. Qed.

Lemma append_assoc_str (a b c : string) : (a ++ b) ++ c = a ++ (b ++ c).
Proof. induction a as [|x a IH]; simpl; [reflexivity|now rewrite IH]. Qed.

(** The stored text is the old text followed by the new one. *)
Lemma accumulate_is_append existing_text transcript_text :
  accumulate existing_text transcript_text = existing_text ++ transcript_text.
Proof.
  unfold accumulate.
  destruct existing_text as [|c e], transcript_text as [|c' t]; simpl;
    try reflexivity.
  now rewrite append_empty_r.
Qed.

Lemma existing_text_of_some text : existing_text_of (Some text) = text.
Proof. unfold existing_text_of. now destruct text. Qed.

(** What [save_transcript] leaves behind: nothing when the driver refuses
    chunk_size or overlap, the replaced row otherwise. *)
Lemma save_transcript_run now meeting_id transcript_text model model_name
    chunk_size overlap d :
  save_transcript now meeting_id transcript_text model model_name chunk_size
    overlap d
  = if fits_int64 chunk_size && fits_int64 overlap
    then (Ok tt,
          set_transcript_chunks
            (sql_insert_or_replace (chunks_of meeting_id)
               (new_chunks meeting_id
                  (stored_text meeting_id d ++ transcript_text)
                  model model_name chunk_size overlap now)
               (transcript_chunks d)) d)
    else (Raise overflow, d).
Proof.
  unfold save_transcript, _get_connection, bind, query, execute, commit, raise,
    open_connection, stored_text. cbn [pending committed fst snd].
  rewrite accumulate_is_append.
  now destruct (fits_int64 chunk_size && fits_int64 overlap).
Qed.

Lemma both_fit chunk_size overlap :
  (- 2 ^ 63 <= chunk_size <= 2 ^ 63 - 1)%Z ->
  (- 2 ^ 63 <= overlap <= 2 ^ 63 - 1)%Z ->
  fits_int64 chunk_size && fits_int64 overlap = true.
Proof.
  intros H1 H2. apply andb_true_iff. split; now apply fits_int64_range.
Qed.

Lemma where_not_where {R : Type} (w : R -> bool) (t : list R) :
  sql_where w (filter (fun x => negb (w x)) t) = [].
Proof.
  apply sql_where_none. intros r Hr. apply filter_In in Hr.
  destruct Hr as [_ Hr]. now destruct (w r).
Qed.

Lemma fetchone_not_where {R : Type} (w : R -> bool) (t : list R) (r : R) :
  w r = true ->
  sql_fetchone w (filter (fun x => negb (w x)) t ++ [r]) = Some r.
Proof.
  intros Hr. unfold sql_fetchone.
  induction t as [|x t IH]; simpl.
  - now rewrite Hr.
  - destruct (w x) eqn:Hx; simpl; [exact IH|]. rewrite Hx. exact IH.
Qed.

(** After a save the driver accepted, the meeting has one row: the one the
    call wrote. *)
Lemma save_transcript_row now meeting_id transcript_text model model_name
    chunk_size overlap d :
  fits_int64 chunk_size && fits_int64 overlap = true ->
  let d' := snd (save_transcript now meeting_id transcript_text model
                   model_name chunk_size overlap d) in
  chunks_for meeting_id d'
  = [new_chunks meeting_id (stored_text meeting_id d ++ transcript_text)
       model model_name chunk_size overlap now]
  /\ stored_text meeting_id d' = stored_text meeting_id d ++ transcript_text.
Proof.
  intros Hfit. rewrite save_transcript_run, Hfit. unfold chunks_for, stored_text.
  destruct d as [ms ts ps cs ss]; cbn [snd transcript_chunks set_transcript_chunks].
  unfold sql_insert_or_replace.
  assert (Hkey : forall text,
             chunks_of meeting_id
               (new_chunks meeting_id text model model_name chunk_size overlap
                  now) = true).
  { intros text. unfold chunks_of. simpl. apply String.eqb_refl. }
  split.
  - unfold sql_where at 1. rewrite filter_app.
    fold (sql_where (chunks_of meeting_id)
            (filter (fun x => negb (chunks_of meeting_id x)) cs)).
    rewrite where_not_where. simpl. now rewrite Hkey.
  - rewrite fetchone_not_where by apply Hkey.
    cbn [option_map]. apply existing_text_of_some.
Qed.

(** C3, as the code has it.  [save_transcript] with text a and then
    [save_transcript] with text b, each with chunk_size and overlap within
    the 64-bit signed range, both return normally and leave one row for the
    meeting, whose transcript_text is the text stored before the two calls
    followed by a and then b, so a followed by b for a meeting that had no
    text stored, and whose model, model_name, chunk_size, overlap (and
    created_at) are those of the second call. *)
Theorem save_transcript_twice_concatenates :
  forall meeting_id a b now1 model1 model_name1 chunk_size1 overlap1
         now2 model2 model_name2 chunk_size2 overlap2 d,
    (- 2 ^ 63 <= chunk_size1 <= 2 ^ 63 - 1)%Z ->
    (- 2 ^ 63 <= overlap1 <= 2 ^ 63 - 1)%Z ->
    (- 2 ^ 63 <= chunk_size2 <= 2 ^ 63 - 1)%Z ->
    (- 2 ^ 63 <= overlap2 <= 2 ^ 63 - 1)%Z ->
    let first := save_transcript now1 meeting_id a model1 model_name1
                   chunk_size1 overlap1 d in
    let second := save_transcript now2 meeting_id b model2 model_name2
                    chunk_size2 overlap2 (snd first) in
    fst first = Ok tt
    /\ fst second = Ok tt
    /\ exists r,
         chunks_for meeting_id (snd second) = [r]
         /\ TranscriptChunks.transcript_text r
            = stored_text meeting_id d ++ (a ++ b)
         /\ (stored_text meeting_id d = "" ->
             TranscriptChunks.transcript_text r = a ++ b)
         /\ TranscriptChunks.model r = model2
         /\ TranscriptChunks.model_name r = model_name2
         /\ TranscriptChunks.chunk_size r = Some chunk_size2
         /\ TranscriptChunks.overlap r = Some overlap2
         /\ TranscriptChunks.created_at r = now2.
Proof.
  intros meeting_id a b now1 model1 model_name1 chunk_size1 overlap1
    now2 model2 model_name2 chunk_size2 overlap2 d Hc1 Ho1 Hc2 Ho2 first second.
  subst first second.
  pose proof (both_fit _ _ Hc1 Ho1) as Hfit1.
  pose proof (both_fit _ _ Hc2 Ho2) as Hfit2.
  split; [now rewrite save_transcript_run, Hfit1|].
  split; [now rewrite save_transcript_run, Hfit2|].
  destruct (save_transcript_row now1 meeting_id a model1 model_name1
              chunk_size1 overlap1 d Hfit1) as [_ Htext1].
  destruct (save_transcript_row now2 meeting_id b model2 model_name2
              chunk_size2 overlap2
              (snd (save_transcript now1 meeting_id a model1 model_name1
                      chunk_size1 overlap1 d)) Hfit2) as [Hrow2 _].
  rewrite Htext1 in Hrow2.
  eexists. split; [exact Hrow2|]. cbn [TranscriptChunks.transcript_text
    TranscriptChunks.model TranscriptChunks.model_name
    TranscriptChunks.chunk_size TranscriptChunks.overlap
    TranscriptChunks.created_at new_chunks].
  split; [apply append_assoc_str|].
  split; [intros ->; reflexivity|]. repeat split.
Qed.

Lemma save_transcript_twice_concatenates_witness :
  ((- 2 ^ 63 <= 1000 <= 2 ^ 63 - 1)%Z /\ (- 2 ^ 63 <= 100 <= 2 ^ 63 - 1)%Z
   /\ (- 2 ^ 63 <= 500 <= 2 ^ 63 - 1)%Z /\ (- 2 ^ 63 <= 50 <= 2 ^ 63 - 1)%Z)
  /\ exists r,
       chunks_for "m1"
         (snd (save_transcript "t2" "m1" "<p>b</p>" "claude" "sonnet" 500 50
                 (snd (save_transcript "t1" "m1" "<p>a</p>" "openai"
                         "gpt-4o-mini" 1000 100 empty_db)))) = [r]
       /\ TranscriptChunks.transcript_text r = "<p>a</p><p>b</p>"
       /\ TranscriptChunks.model r = "claude".
Proof.
  assert (H1 : (- 2 ^ 63 <= 1000 <= 2 ^ 63 - 1)%Z) by lia.
  assert (H2 : (- 2 ^ 63 <= 100 <= 2 ^ 63 - 1)%Z) by lia.
  assert (H3 : (- 2 ^ 63 <= 500 <= 2 ^ 63 - 1)%Z) by lia.
  assert (H4 : (- 2 ^ 63 <= 50 <= 2 ^ 63 - 1)%Z) by lia.
  split; [exact (conj H1 (conj H2 (conj H3 H4)))|].
  destruct (save_transcript_twice_concatenates "m1" "<p>a</p>" "<p>b</p>"
              "t1" "openai" "gpt-4o-mini" 1000 100
              "t2" "claude" "sonnet" 500 50 empty_db H1 H2 H3 H4)
    as (_ & _ & r & Hr & _ & Htext & Hmodel & _).
  exists r. split; [exact Hr|]. split; [exact (Htext eq_refl)|exact Hmodel].
Defined.

(** Counterexample to C3 as worded: meeting m1 already has the text
    "<p>hello</p>"; after saving "a" and then "b" the stored text is that
    text followed by "ab", not "ab". *)
Lemma save_transcript_twice_keeps_earlier_text :
  exists r,
    chunks_for "m1"
      (snd (save_transcript "t4" "m1" "b" "gpt-4o-mini" "gpt-4o-mini" 1000 100
              (snd (save_transcript "t3" "m1" "a" "gpt-4o-mini" "gpt-4o-mini"
                      1000 100 db_m1_renamed)))) = [r]
    /\ TranscriptChunks.transcript_text r = "<p>hello</p>ab"
    /\ TranscriptChunks.transcript_text r <> "a" ++ "b".
Proof.
  eexists. split; [vm_compute; reflexivity|].
  split; [reflexivity|]. simpl. discriminate.
Qed.

(** Whatever the row held, the row a save leaves has a null meeting_name
    (a save the driver refused leaves the row as it was). *)
Lemma save_transcript_nulls_meeting_name now meeting_id transcript_text model
    model_name chunk_size overlap d :
  fits_int64 chunk_size && fits_int64 overlap = true ->
  Forall (fun r => TranscriptChunks.meeting_name r = None)
    (chunks_for meeting_id
       (snd (save_transcript now meeting_id transcript_text model model_name
               chunk_size overlap d))).
Proof.
  intros Hfit.
  destruct (save_transcript_row now meeting_id transcript_text model model_name
              chunk_size overlap d Hfit) as [-> _].
  now repeat constructor.
Qed.

(** C2, which the code breaks.  Meeting m1 has a working-buffer row whose
    meeting_name is "Weekly" (written by [update_meeting_name]); the next
    [save_transcript] replaces the row and its meeting_name is null. *)
Theorem save_transcript_loses_meeting_name :
  (exists r,
     chunks_for "m1" db_m1_renamed = [r]
     /\ TranscriptChunks.meeting_name r = Some "Weekly")
  /\ exists r',
       chunks_for "m1"
         (snd (save_transcript "t3" "m1" "<p>bye</p>" "gpt-4o-mini"
                 "gpt-4o-mini" 1000 100 db_m1_renamed)) = [r']
       /\ TranscriptChunks.transcript_text r' = "<p>hello</p><p>bye</p>"
       /\ TranscriptChunks.meeting_name r' = None.
Proof.
  split.
  - eexists. split; [vm_compute; reflexivity|reflexivity].
  - eexists. split; [vm_compute; reflexivity|]. split; reflexivity.
Qed.

(** ** get_transcript_data *)

Lemma get_transcript_data_run meeting_id d :
  get_transcript_data meeting_id d
  = (Ok match select_transcript_data meeting_id d with
        | (t, p) :: _ => Some (transcript_data t p)
        | [] => None
        end, d).
Proof.
  unfold get_transcript_data, _get_connection, bind, query, open_connection.
  cbn [pending]. now destruct (select_transcript_data meeting_id d) as [|[t p] l].
Qed.

(** The join has a row for the meeting exactly when both tables have one. *)
Lemma select_transcript_data_rows meeting_id d :
  select_transcript_data meeting_id d <> []
  <-> (exists t, In t (transcript_chunks d)
                 /\ TranscriptChunks.meeting_id t = meeting_id)
      /\ (exists p, In p (summary_processes d)
                    /\ SummaryProcesses.meeting_id p = meeting_id).
Proof.
  unfold select_transcript_data, sql_join, chunks_of. split.
  - intros Hrows.
    destruct (filter _ _) as [|[t p] l] eqn:Hsel; [congruence|].
    assert (Hin : In (t, p) ((t, p) :: l)) by now left.
    rewrite <- Hsel in Hin. apply filter_In in Hin. destruct Hin as [Hin Hid].
    apply in_flat_map in Hin. destruct Hin as (t' & Ht' & Hin).
    apply in_map_iff in Hin. destruct Hin as (p' & Heq & Hp').
    inversion Heq; subst t' p'. apply filter_In in Hp'. destruct Hp' as [Hp' Hon].
    simpl in Hid. apply String.eqb_eq in Hid, Hon.
    split; [now exists t|]. exists p. split; [assumption|congruence].
  - intros [(t & Ht & Hidt) (p & Hp & Hidp)] Hnil.
    assert (Hin : In (t, p)
              (filter (fun tp => TranscriptChunks.meeting_id (fst tp) =? meeting_id)
                 (flat_map
                    (fun a => map (pair a)
                       (filter (fun p0 => TranscriptChunks.meeting_id a
                                          =? SummaryProcesses.meeting_id p0)
                          (summary_processes d)))
                    (transcript_chunks d)))).
    { apply filter_In. split.
      - apply in_flat_map. exists t. split; [assumption|].
        apply in_map. apply filter_In. split; [assumption|].
        apply String.eqb_eq. congruence.
      - simpl. now apply String.eqb_eq. }
    rewrite Hnil in Hin. contradiction.
Qed.

(** C9.  [get_transcript_data] returns normally and leaves the database as
    it was; its result is not None exactly when transcript_chunks has a row
    for the meeting and summary_processes has a row for the meeting.  So a
    meeting with a working-buffer row and no process row yields None. *)
Theorem get_transcript_data_inner_join :
  forall meeting_id d,
    snd (get_transcript_data meeting_id d) = d
    /\ (exists data, fst (get_transcript_data meeting_id d) = Ok data
          /\ (data <> None
              <-> (exists t, In t (transcript_chunks d)
                             /\ TranscriptChunks.meeting_id t = meeting_id)
                  /\ (exists p, In p (summary_processes d)
                                /\ SummaryProcesses.meeting_id p = meeting_id)))
    /\ ((forall p, In p (summary_processes d) ->
                   SummaryProcesses.meeting_id p <> meeting_id) ->
        fst (get_transcript_data meeting_id d) = Ok None).
Proof.
  intros meeting_id d. rewrite get_transcript_data_run. cbn [fst snd].
  pose proof (select_transcript_data_rows meeting_id d) as Hrows.
  split; [reflexivity|]. split.
  - eexists. split; [reflexivity|].
    rewrite <- Hrows.
    destruct (select_transcript_data meeting_id d) as [|[t p] l].
    + split; intros H; now elim H.
    + split; intros _; discriminate.
  - intros Hnone.
    destruct (select_transcript_data meeting_id d) as [|[t p] l]; [reflexivity|].
    assert (Hne : (t, p) :: l <> []) by discriminate.
    apply Hrows in Hne. destruct Hne as [_ (p' & Hp' & Hid)].
    now elim (Hnone p' Hp').
Qed.

Lemma get_transcript_data_inner_join_witness :
  (forall p, In p (summary_processes db_m1_renamed) ->
             SummaryProcesses.meeting_id p <> "m1")
  /\ fst (get_transcript_data "m1" db_m1_renamed) = Ok None.
Proof.
  assert (H : forall p, In p (summary_processes db_m1_renamed) ->
                        SummaryProcesses.meeting_id p <> "m1").
  { intros p []. }
  split; [exact H|].
  exact (proj2 (proj2 (get_transcript_data_inner_join "m1" db_m1_renamed)) H).
Defined.

(** ** save_meeting *)

Lemma fetchone_none {R : Type} (w : R -> bool) (t : list R) :
  (forall r, In r t -> w r = false) -> sql_fetchone w t = None.
Proof.
  unfold sql_fetchone. induction t as [|x t IH]; intros Hno; simpl.
  - reflexivity.
  - rewrite (Hno x (or_introl eq_refl)). apply IH.
    intros r Hr. apply Hno. now right.
Qed.

Lemma fetchone_some {R : Type} (w : R -> bool) (t : list R) (r : R) :
  In r t -> w r = true -> exists r', sql_fetchone w t = Some r'.
Proof.
  unfold sql_fetchone. induction t as [|x t IH]; intros Hin Hr; simpl.
  - contradiction.
  - destruct (w x) eqn:Hx; [now exists x|].
    destruct Hin as [->|Hin]; [congruence|]. now apply IH.
Qed.

(** The meeting is inserted when no meeting has its id or its title. *)
Lemma save_meeting_new now meeting_id title d :
  (forall r, In r (meetings d) ->
             Meetings.id r <> meeting_id /\ Meetings.title r <> title) ->
  save_meeting now meeting_id title d
  = (Ok true,
     set_meetings
       (meetings d ++ [{| Meetings.id := meeting_id;
                          Meetings.title := title;
                          Meetings.created_at := now;
                          Meetings.updated_at := now |}])%list d).
Proof.
  intros Hfree.
  assert (Hw : forall r, In r (meetings d) ->
                         id_or_title meeting_id title r = false).
  { intros r Hr. destruct (Hfree r Hr) as [Hid Htitle].
    unfold id_or_title. apply orb_false_iff.
    split; now apply String.eqb_neq. }
  assert (Hk : forall r, In r (meetings d) -> meeting_of meeting_id r = false).
  { intros r Hr. unfold meeting_of. apply String.eqb_neq.
    now apply (Hfree r Hr). }
  unfold save_meeting, sqlite3_connect, bind, query, open_connection.
  cbn [pending]. rewrite (fetchone_none _ _ Hw).
  unfold insert_meeting, sql_insert. cbn [pending Meetings.id].
  rewrite (existsb_none _ _ Hk). reflexivity.
Qed.

(** The call raises and writes nothing when a meeting has the id or the
    title. *)
Lemma save_meeting_conflict now meeting_id title d :
  (exists r, In r (meetings d)
             /\ (Meetings.id r = meeting_id \/ Meetings.title r = title)) ->
  save_meeting now meeting_id title d
  = (Raise (Exception ("Meeting with ID " ++ meeting_id ++ " already exists")),
     d).
Proof.
  intros (r & Hr & Hsame).
  assert (Hw : id_or_title meeting_id title r = true).
  { unfold id_or_title. apply orb_true_iff.
    destruct Hsame as [H|H]; [left|right]; now apply String.eqb_eq. }
  destruct (fetchone_some _ _ _ Hr Hw) as (r' & Hfetch).
  unfold save_meeting, sqlite3_connect, bind, query, raise, open_connection.
  cbn [pending]. now rewrite Hfetch.
Qed.

(** C10.  [save_meeting] inserts one row, with the id and the title given,
    when no meeting has that id or that title, and returns True; when a
    meeting has the id or the title it raises the exception "Meeting with
    ID ... already exists" and the database is unchanged.  After a call
    that inserted, the same call again raises, the database is unchanged,
    and the table holds exactly one row with the id. *)
Theorem save_meeting_rejects_duplicates :
  forall now now' meeting_id title d,
    let conflict :=
      Raise (Exception ("Meeting with ID " ++ meeting_id ++ " already exists")) in
    let new :=
      {| Meetings.id := meeting_id;
         Meetings.title := title;
         Meetings.created_at := now;
         Meetings.updated_at := now |} in
    ((exists r, In r (meetings d)
                /\ (Meetings.id r = meeting_id \/ Meetings.title r = title)) ->
     save_meeting now meeting_id title d = (conflict, d))
    /\ ((forall r, In r (meetings d) ->
                   Meetings.id r <> meeting_id /\ Meetings.title r <> title) ->
        fst (save_meeting now meeting_id title d) = Ok true
        /\ meetings (snd (save_meeting now meeting_id title d))
           = (meetings d ++ [new])%list
        /\ transcripts (snd (save_meeting now meeting_id title d)) = transcripts d
        /\ summary_processes (snd (save_meeting now meeting_id title d))
           = summary_processes d
        /\ transcript_chunks (snd (save_meeting now meeting_id title d))
           = transcript_chunks d
        /\ settings (snd (save_meeting now meeting_id title d)) = settings d
        /\ save_meeting now' meeting_id title
             (snd (save_meeting now meeting_id title d))
           = (conflict, snd (save_meeting now meeting_id title d))
        /\ sql_where (meeting_of meeting_id)
             (meetings (snd (save_meeting now' meeting_id title
                               (snd (save_meeting now meeting_id title d)))))
           = [new]).
Proof.
  intros now now' meeting_id title d conflict new. split.
  - apply save_meeting_conflict.
  - intros Hfree. rewrite (save_meeting_new now _ _ _ Hfree).
    cbn [fst snd]. fold new.
    assert (Hsecond :
      save_meeting now' meeting_id title
        (set_meetings (meetings d ++ [new])%list d)
      = (conflict, set_meetings (meetings d ++ [new])%list d)).
    { apply save_meeting_conflict. exists new. split.
      - destruct d; simpl. apply in_or_app. right. now left.
      - now left. }
    rewrite Hsecond. cbn [snd].
    destruct d as [ms ts ps cs ss]; cbn [meetings transcripts summary_processes
      transcript_chunks settings set_meetings] in *.
    repeat split.
    unfold sql_where. rewrite filter_app.
    fold (sql_where (meeting_of meeting_id) ms).
    rewrite sql_where_none.
    + simpl. unfold meeting_of. simpl. now rewrite String.eqb_refl.
    + intros r Hr. unfold meeting_of. apply String.eqb_neq. now apply (Hfree r Hr).
Qed.

Lemma save_meeting_rejects_duplicates_witness :
  (forall r, In r (meetings empty_db) ->
             Meetings.id r <> "m2" /\ Meetings.title r <> "Title")
  /\ save_meeting "t2" "m2" "Title" (snd (save_meeting "t1" "m2" "Title" empty_db))
     = (Raise (Exception "Meeting with ID m2 already exists"),
        snd (save_meeting "t1" "m2" "Title" empty_db))
  /\ sql_where (meeting_of "m2")
       (meetings (snd (save_meeting "t2" "m2" "Title"
                         (snd (save_meeting "t1" "m2" "Title" empty_db)))))
     = [{| Meetings.id := "m2";
           Meetings.title := "Title";
           Meetings.created_at := "t1";
           Meetings.updated_at := "t1" |}].
Proof.
  assert (H : forall r, In r (meetings empty_db) ->
                        Meetings.id r <> "m2" /\ Meetings.title r <> "Title").
  { intros r []. }
  split; [exact H|].
  destruct (proj2 (save_meeting_rejects_duplicates "t1" "t2" "m2" "Title"
                     empty_db) H)
    as (_ & _ & _ & _ & _ & _ & Hsecond & Hone).
  split; [exact Hsecond|exact Hone].
Defined.

(** ** API keys *)

Lemma not_in_true provider :
  ~ In provider provider_list -> not_in provider provider_list = true.
Proof.
  intros Hnot. unfold not_in. apply negb_true_iff.
  apply existsb_none. intros p Hp. apply String.eqb_neq. congruence.
Qed.

Lemma in_provider_list provider :
  In provider provider_list ->
  not_in provider provider_list = false
  /\ exists col, api_key_name provider = Some col.
Proof.
  intros Hin. simpl in Hin.
  destruct Hin as [<-|[<-|[<-|[<-|[]]]]]; (split; [reflexivity|eexists; reflexivity]).
Qed.

Lemma set_key_only col v r :
  settings_of "1" r = true -> only_key_written col v r (set_key col v r).
Proof.
  intros H1. unfold only_key_written. rewrite H1.
  repeat split; try (now destruct col).
  intros c Hc. destruct c, col; try reflexivity; congruence.
Qed.

Lemma keep_only col v r :
  settings_of "1" r = false -> only_key_written col v r r.
Proof.
  intros H1. unfold only_key_written. rewrite H1. repeat split; reflexivity.
Qed.

(** An UPDATE of one key column, row by row. *)
Lemma update_key_rows col v t :
  Forall2 (only_key_written col v) t
    (sql_update (settings_of "1") (set_key col v) t).
Proof.
  unfold sql_update. induction t as [|r t IH]; simpl; constructor; [|exact IH].
  destruct (settings_of "1" r) eqn:H1; [now apply set_key_only|now apply keep_only].
Qed.

Lemma write_key_run col v d :
  _get_connection (update_settings_key col v ;; commit) d
  = (Ok tt,
     set_settings (sql_update (settings_of "1") (set_key col v) (settings d)) d).
Proof. reflexivity. Qed.

(** C7.  For a provider outside the list openai, claude, groq, ollama,
    [save_api_key], [get_api_key] and [delete_api_key] raise ValueError
    "Invalid provider: ..." and the database is unchanged.  For a provider
    in the list the three calls return normally and work on the column
    [api_key_name] gives it (openaiApiKey, anthropicApiKey, groqApiKey,
    ollamaApiKey in that order): [save_api_key] writes the key there and
    [delete_api_key] writes null there, in the settings row '1' and nowhere
    else, every settings row stays, and the other tables are unchanged;
    [get_api_key] reads that column of row '1' and changes nothing. *)
Theorem api_key_provider_allow_list :
  forall api_key provider d,
    (~ In provider provider_list ->
     save_api_key api_key provider d
     = (Raise (ValueError ("Invalid provider: " ++ provider)), d)
     /\ get_api_key provider d
        = (Raise (ValueError ("Invalid provider: " ++ provider)), d)
     /\ delete_api_key provider d
        = (Raise (ValueError ("Invalid provider: " ++ provider)), d))
    /\ (In provider provider_list ->
        exists col,
          api_key_name provider = Some col
          /\ fst (save_api_key api_key provider d) = Ok tt
          /\ Forall2 (only_key_written col (Some api_key)) (settings d)
               (settings (snd (save_api_key api_key provider d)))
          /\ fst (delete_api_key provider d) = Ok tt
          /\ Forall2 (only_key_written col None) (settings d)
               (settings (snd (delete_api_key provider d)))
          /\ (forall d', d' = snd (save_api_key api_key provider d)
                         \/ d' = snd (delete_api_key provider d) ->
                 meetings d' = meetings d
                 /\ transcripts d' = transcripts d
                 /\ summary_processes d' = summary_processes d
                 /\ transcript_chunks d' = transcript_chunks d)
          /\ get_api_key provider d
             = (Ok (first_if_truthy
                      (option_map (key_of col)
                         (sql_fetchone (settings_of "1") (settings d)))), d))
    /\ api_key_name "openai" = Some openaiApiKey
    /\ api_key_name "claude" = Some anthropicApiKey
    /\ api_key_name "groq" = Some groqApiKey
    /\ api_key_name "ollama" = Some ollamaApiKey.
Proof.
  intros api_key provider d. split; [|split].
  - intros Hnot. unfold save_api_key, get_api_key, delete_api_key.
    rewrite (not_in_true _ Hnot). repeat split.
  - intros Hin. destruct (in_provider_list _ Hin) as [Hlist (col & Hcol)].
    exists col. unfold save_api_key, get_api_key, delete_api_key.
    rewrite Hlist, Hcol, !write_key_run. cbn [fst snd].
    split; [reflexivity|]. split; [reflexivity|].
    split; [destruct d; apply update_key_rows|].
    split; [reflexivity|].
    split; [destruct d; apply update_key_rows|].
    split; [|reflexivity].
    intros d' [->| ->]; destruct d; repeat split.
  - repeat split.
Qed.

Lemma api_key_provider_allow_list_witness :
  (~ In "azure" provider_list
   /\ save_api_key "sk-123" "azure" db_custom_settings
      = (Raise (ValueError "Invalid provider: azure"), db_custom_settings)
   /\ get_api_key "azure" db_custom_settings
      = (Raise (ValueError "Invalid provider: azure"), db_custom_settings)
   /\ delete_api_key "azure" db_custom_settings
      = (Raise (ValueError "Invalid provider: azure"), db_custom_settings))
  /\ (In "claude" provider_list
      /\ exists col,
           api_key_name "claude" = Some col
           /\ Forall2 (only_key_written col None) (settings db_custom_settings)
                (settings (snd (delete_api_key "claude" db_custom_settings)))).
Proof.
  assert (Hout : ~ In "azure" provider_list).
  { simpl. intros [H|[H|[H|[H|[]]]]]; discriminate. }
  assert (Hin : In "claude" provider_list) by (simpl; tauto).
  split.
  - split; [exact Hout|].
    exact (proj1 (api_key_provider_allow_list "sk-123" "azure"
                    db_custom_settings) Hout).
  - split; [exact Hin|].
    destruct (proj1 (proj2 (api_key_provider_allow_list "sk-123" "claude"
                              db_custom_settings)) Hin)
      as (col & Hcol & _ & _ & _ & Hdel & _).
    exists col. split; assumption.
Defined.

(** ** Bootstrap *)

Lemma _init_db_run f :
  _init_db f
  = (Ok tt,
     {| meetings := create_table_if_not_exists (file_meetings f);
        transcripts := create_table_if_not_exists (file_transcripts f);
        summary_processes := create_table_if_not_exists (file_summary_processes f);
        transcript_chunks := create_table_if_not_exists (file_transcript_chunks f);
        settings :=
          sql_insert_or_ignore (settings_of "1")
            (new_settings "1" "openai" "gpt-4o-mini" "whisper-1")
            (create_table_if_not_exists (file_settings f)) |}).
Proof. reflexivity. Qed.

(** Once the row '1' is there, a further run changes nothing. *)
Lemma _init_db_again d :
  existsb (settings_of "1") (settings d) = true ->
  file_of (snd (_init_db (file_of d))) = file_of d.
Proof.
  intros Hrow. rewrite _init_db_run. destruct d as [ms ts ps cs ss].
  unfold file_of, sql_insert_or_ignore; simpl in *. now rewrite Hrow.
Qed.

Lemma bootstrap_again n d :
  existsb (settings_of "1") (settings d) = true ->
  bootstrap n (file_of d) = file_of d.
Proof.
  intros Hrow. induction n as [|n IH]; cbn [bootstrap]; [reflexivity|].
  now rewrite (_init_db_again d Hrow).
Qed.

Lemma insert_or_ignore_has_row (t : list Settings.row) :
  existsb (settings_of "1")
    (sql_insert_or_ignore (settings_of "1")
       (new_settings "1" "openai" "gpt-4o-mini" "whisper-1") t) = true.
Proof.
  unfold sql_insert_or_ignore.
  destruct (existsb (settings_of "1") t) eqn:Hrow; [exact Hrow|].
  rewrite existsb_app, Hrow. reflexivity.
Qed.

(** Any number of runs amounts to one. *)
Lemma bootstrap_once n f :
  bootstrap (S n) f = file_of (snd (_init_db f)).
Proof.
  cbn [bootstrap]. apply bootstrap_again. rewrite _init_db_run.
  cbn [snd settings]. apply insert_or_ignore_has_row.
Qed.

Lemma primary_key_settings_at_most_one id t :
  primary_key Settings.id t ->
  settings_for id t = [] \/ exists r, settings_for id t = [r].
Proof.
  unfold primary_key, settings_for, sql_where.
  induction t as [|x t IH]; simpl; intros Hk.
  - now left.
  - inversion Hk as [|? ? Hnotin Hk']; subst.
    destruct (settings_of id x) eqn:Hx.
    + right. exists x. f_equal.
      apply (sql_where_none (settings_of id) t).
      intros r Hr. unfold settings_of in *.
      apply String.eqb_eq in Hx. apply String.eqb_neq. intros Heq.
      apply Hnotin. rewrite Hx, <- Heq. now apply in_map.
    + now apply IH.
Qed.

Lemma existsb_where {R : Type} (w : R -> bool) (t : list R) :
  existsb w t = false <-> sql_where w t = [].
Proof.
  unfold sql_where. induction t as [|x t IH]; simpl; [tauto|].
  destruct (w x); simpl; [split; discriminate|exact IH].
Qed.

(** C8.  Take a database file whose settings table, if it has one,
    respects its primary key, and run the bootstrap once or more.  The
    settings table then exists and holds exactly one row with id '1'.  If
    the file had no such row (no table, or no row '1'), the table is the old
    one followed by the row ('1', 'openai', 'gpt-4o-mini', 'whisper-1') with
    null keys.  If the file had one, the settings table is the old table,
    row for row.  The other tables keep their rows. *)
Theorem bootstrap_settings_singleton :
  forall n f,
    let old := create_table_if_not_exists (file_settings f) in
    let f' := bootstrap (S n) f in
    primary_key Settings.id old ->
    exists rows,
      file_settings f' = Some rows
      /\ (exists r, settings_for "1" rows = [r])
      /\ (settings_for "1" old = [] ->
          rows = (old ++ [{| Settings.id := "1";
                             Settings.provider := "openai";
                             Settings.model := "gpt-4o-mini";
                             Settings.whisperModel := "whisper-1";
                             Settings.groqApiKey := None;
                             Settings.openaiApiKey := None;
                             Settings.anthropicApiKey := None;
                             Settings.ollamaApiKey := None |}])%list)
      /\ (forall r0, settings_for "1" old = [r0] ->
            rows = old /\ settings_for "1" rows = [r0])
      /\ file_meetings f' = Some (create_table_if_not_exists (file_meetings f))
      /\ file_transcripts f'
         = Some (create_table_if_not_exists (file_transcripts f))
      /\ file_summary_processes f'
         = Some (create_table_if_not_exists (file_summary_processes f))
      /\ file_transcript_chunks f'
         = Some (create_table_if_not_exists (file_transcript_chunks f)).
Proof.
  intros n f old f' Hkey. subst f'. rewrite bootstrap_once, _init_db_run.
  cbn [snd file_of settings meetings transcripts summary_processes
       transcript_chunks file_settings file_meetings file_transcripts
       file_summary_processes file_transcript_chunks].
  fold old. eexists. split; [reflexivity|].
  unfold sql_insert_or_ignore, settings_for in *.
  destruct (existsb (settings_of "1") old) eqn:Hrow.
  - assert (Hsome : sql_where (settings_of "1") old <> []).
    { intros Hnil. apply existsb_where in Hnil. congruence. }
    destruct (primary_key_settings_at_most_one "1" old Hkey) as [Hnil|(r & Hr)];
      [contradiction|].
    unfold settings_for in Hr.
    split; [now exists r|]. split; [intros Hnil; contradiction|].
    split; [intros r0 Hr0; now split|]. repeat split.
  - apply existsb_where in Hrow.
    assert (Hnew : sql_where (settings_of "1")
                     (old ++ [new_settings "1" "openai" "gpt-4o-mini" "whisper-1"])
                   = [new_settings "1" "openai" "gpt-4o-mini" "whisper-1"]).
    { unfold sql_where in *. rewrite filter_app, Hrow. reflexivity. }
    split; [eexists; exact Hnew|]. split; [reflexivity|].
    split; [intros r0 Hr0; congruence|]. repeat split.
Qed.

Lemma bootstrap_settings_singleton_witness :
  primary_key Settings.id
    (create_table_if_not_exists (file_settings (file_of db_custom_settings)))
  /\ exists rows,
       file_settings (bootstrap 3 (file_of db_custom_settings)) = Some rows
       /\ rows = [custom_settings].
Proof.
  assert (Hkey : primary_key Settings.id
                   (create_table_if_not_exists
                      (file_settings (file_of db_custom_settings)))).
  { unfold primary_key. simpl. constructor; [intros []|constructor]. }
  split; [exact Hkey|].
  destruct (bootstrap_settings_singleton 2 (file_of db_custom_settings) Hkey)
    as (rows & Hrows & _ & _ & Hkeep & _).
  exists rows. split; [exact Hrows|].
  exact (proj1 (Hkeep custom_settings eq_refl)).
Defined.

(** On a new file the bootstrap creates the five tables and the default
    settings row. *)
Example bootstrap_new_file :
  bootstrap 2 new_file
  = file_of (set_settings
               [new_settings "1" "openai" "gpt-4o-mini" "whisper-1"] empty_db).
Proof. reflexivity. Qed.

(** ** The scenarios of the specification, run on the model *)

(** Scenario B: a process is created and completed. *)
Example scenario_completed :
  processes_for "m1"
    (run_calls "m1"
       [Create_process "t1";
        Update_process "t2" "COMPLETED" (Some [("summary", JStr "ok")]) None
          None None None] empty_db)
  = [{| SummaryProcesses.meeting_id := "m1";
        SummaryProcesses.status := "COMPLETED";
        SummaryProcesses.created_at := "t1";
        SummaryProcesses.updated_at := "t2";
        SummaryProcesses.error := None;
        SummaryProcesses.result :=
          Some (json_dumps (JDict [("summary", JStr "ok")]));
        SummaryProcesses.start_time := Some "t1";
        SummaryProcesses.end_time := Some "t2";
        SummaryProcesses.chunk_count := Some 0%Z;
        SummaryProcesses.processing_time := Some 0%float;
        SummaryProcesses.metadata := None |}].
Proof. vm_compute. reflexivity. Qed.

(** Scenario C: a key is saved, read, deleted and read again. *)
Example scenario_api_key :
  let d0 := snd (_init_db new_file) in
  let d1 := snd (save_api_key "sk-123" "openai" d0) in
  let d2 := snd (delete_api_key "openai" d1) in
  fst (get_api_key "openai" d0) = Ok None
  /\ fst (get_api_key "openai" d1) = Ok (Some "sk-123")
  /\ fst (get_api_key "openai" d2) = Ok None
  /\ length (settings d2) = 1.
Proof. vm_compute. repeat split. Qed.

(* ------------------------------------------------------------------ *)
(** * Further properties of the operations *)

(** ** Transcript buffer *)

Lemma concat_empty_cons (x : string) (l : list string) :
  String.concat "" (x :: l) = x ++ String.concat "" l.
Proof. destruct l; simpl; [now rewrite append_empty_r|reflexivity]. Qed.

Lemma concat_empty_app (l1 l2 : list string) :
  String.concat "" (l1 ++ l2) = String.concat "" l1 ++ String.concat "" l2.
Proof.
  induction l1 as [|x l1 IH]; [reflexivity|].
  change ((x :: l1) ++ l2)%list with (x :: (l1 ++ l2))%list.
  now rewrite !concat_empty_cons, IH, append_assoc_str.
Qed.

Lemma save_transcript_refused now meeting_id transcript_text model model_name
    chunk_size overlap d :
  fits_int64 chunk_size && fits_int64 overlap = false ->
  save_transcript now meeting_id transcript_text model model_name chunk_size
    overlap d = (Raise overflow, d).
Proof. intros Hfit. now rewrite save_transcript_run, Hfit. Qed.

(** Calls the driver refuses leave no trace. *)
Lemma save_transcripts_accepted calls meeting_id :
  forall d,
    save_transcripts meeting_id calls d
    = save_transcripts meeting_id (filter accepted calls) d.
Proof.
  unfold save_transcripts.
  induction calls as [|c calls IH]; intros d; cbn [fold_left filter];
    [reflexivity|].
  destruct (accepted c) eqn:Hc; cbn [fold_left]; [apply IH|].
  rewrite save_transcript_refused by exact Hc. apply IH.
Qed.

Lemma save_transcripts_text calls meeting_id :
  forall d,
    Forall (fun c => accepted c = true) calls ->
    stored_text meeting_id (save_transcripts meeting_id calls d)
    = stored_text meeting_id d ++ String.concat "" (map call_text calls).
Proof.
  unfold save_transcripts.
  induction calls as [|c calls IH]; intros d Hall; cbn [fold_left map].
  - simpl. now rewrite append_empty_r.
  - inversion Hall as [|? ? Hc Hrest]; subst.
    rewrite (IH _ Hrest), concat_empty_cons, <- append_assoc_str. f_equal.
    now apply save_transcript_row.
Qed.

Lemma filter_accepted calls :
  Forall (fun c => accepted c = true) (filter accepted calls).
Proof. apply Forall_forall. intros c Hc. now apply filter_In in Hc. Qed.

(** X1.  Any number of saves for a meeting leaves the stored text equal to
    the text stored before followed by the texts of the calls whose
    chunk_size and overlap are within the 64-bit signed range, in call order
    and with nothing in between (the other calls raise and append nothing);
    after at least one such call the meeting has exactly one row, and its
    model, model_name, chunk_size, overlap and created_at are those of the
    last of them. *)
Theorem save_transcripts_accumulate :
  forall calls meeting_id d,
    stored_text meeting_id (save_transcripts meeting_id calls d)
    = stored_text meeting_id d
      ++ String.concat "" (map call_text (filter accepted calls))
    /\ (forall earlier c,
          filter accepted calls = (earlier ++ [c])%list ->
          chunks_for meeting_id (save_transcripts meeting_id calls d)
          = [{| TranscriptChunks.meeting_id := meeting_id;
                TranscriptChunks.meeting_name := None;
                TranscriptChunks.transcript_text :=
                  stored_text meeting_id d
                  ++ String.concat "" (map call_text (filter accepted calls));
                TranscriptChunks.model := call_model c;
                TranscriptChunks.model_name := call_model_name c;
                TranscriptChunks.chunk_size := Some (call_chunk_size c);
                TranscriptChunks.overlap := Some (call_overlap c);
                TranscriptChunks.created_at := call_now c |}]).
Proof.
  intros calls meeting_id d. rewrite save_transcripts_accepted.
  pose proof (filter_accepted calls) as Hall.
  split; [now apply save_transcripts_text|].
  intros earlier c Heq. rewrite Heq in *.
  apply Forall_app in Hall. destruct Hall as [Hearlier Hc].
  inversion Hc as [|? ? Hfit _]; subst.
  unfold save_transcripts. rewrite fold_left_app.
  cbn [fold_left]. fold (save_transcripts meeting_id earlier d).
  rewrite (proj1 (save_transcript_row _ _ _ _ _ _ _ _ Hfit)).
  rewrite (save_transcripts_text earlier meeting_id d Hearlier).
  rewrite map_app, concat_empty_app, append_assoc_str.
  cbn [map]. reflexivity.
Qed.

Lemma save_transcripts_accumulate_witness :
  filter accepted three_chunks
  = (firstn 2 three_chunks ++ skipn 2 three_chunks)%list
  /\ exists r,
       chunks_for "m1" (save_transcripts "m1" three_chunks db_m1_renamed) = [r]
       /\ TranscriptChunks.transcript_text r = "<p>hello</p><p>a</p><p>c</p>"
       /\ TranscriptChunks.model r = "claude".
Proof.
  split; [reflexivity|].
  eexists. split.
  - exact (proj2 (save_transcripts_accumulate three_chunks "m1" db_m1_renamed)
             (firstn 2 three_chunks) _ eq_refl).
  - split; reflexivity.
Defined.

Lemma filter_twice {R : Type} (f : R -> bool) (t : list R) :
  filter f (filter f t) = filter f t.
Proof.
  induction t as [|x t IH]; simpl; [reflexivity|].
  destruct (f x) eqn:Hx; simpl; [rewrite Hx; now f_equal|exact IH].
Qed.

Lemma filter_all {R : Type} (f : R -> bool) (t : list R) :
  (forall r, In r t -> f r = true) -> filter f t = t.
Proof.
  induction t as [|x t IH]; intros Hall; simpl; [reflexivity|].
  rewrite (Hall x (or_introl eq_refl)). f_equal.
  apply IH. intros r Hr. apply Hall. now right.
Qed.

(** X2.  A save touches the working buffer of its meeting only: the rows
    transcript_chunks holds for other meetings are the same rows in the same
    order, and the other four tables are unchanged.  The call returns
    normally when chunk_size and overlap are within the 64-bit signed
    range; otherwise it raises OverflowError and the database is as it
    was. *)
Theorem save_transcript_other_meetings_untouched :
  forall now meeting_id transcript_text model model_name chunk_size overlap d,
    let call := save_transcript now meeting_id transcript_text model model_name
                  chunk_size overlap d in
    ((- 2 ^ 63 <= chunk_size <= 2 ^ 63 - 1)%Z ->
     (- 2 ^ 63 <= overlap <= 2 ^ 63 - 1)%Z ->
     fst call = Ok tt)
    /\ ((chunk_size < - 2 ^ 63 \/ 2 ^ 63 - 1 < chunk_size
         \/ overlap < - 2 ^ 63 \/ 2 ^ 63 - 1 < overlap)%Z ->
        call = (Raise overflow, d))
    /\ sql_where (fun r => negb (chunks_of meeting_id r))
         (transcript_chunks (snd call))
       = sql_where (fun r => negb (chunks_of meeting_id r)) (transcript_chunks d)
    /\ meetings (snd call) = meetings d
    /\ transcripts (snd call) = transcripts d
    /\ summary_processes (snd call) = summary_processes d
    /\ settings (snd call) = settings d.
Proof.
  intros now meeting_id transcript_text model model_name chunk_size overlap d
    call. subst call. rewrite save_transcript_run.
  split; [|split].
  - intros Hc Ho. now rewrite both_fit.
  - intros Hout.
    assert (Hfit : fits_int64 chunk_size && fits_int64 overlap = false).
    { apply andb_false_iff.
      destruct Hout as [H|[H|[H|H]]];
        [left|left|right|right]; apply fits_int64_outside; auto. }
    now rewrite Hfit.
  - destruct (fits_int64 chunk_size && fits_int64 overlap); [|repeat split].
    cbn [fst snd].
    destruct d as [ms ts ps cs ss];
      cbn [set_transcript_chunks meetings transcripts summary_processes
           transcript_chunks settings].
    repeat split.
    unfold sql_insert_or_replace, sql_where. rewrite filter_app, filter_twice.
    cbn [filter]. unfold chunks_of at 2.
    cbn [TranscriptChunks.meeting_id new_chunks].
    rewrite String.eqb_refl. cbn [negb]. apply app_nil_r.
Qed.

Lemma save_transcript_other_meetings_untouched_witness :
  (- 2 ^ 63 <= 1000 <= 2 ^ 63 - 1)%Z /\ (- 2 ^ 63 <= 100 <= 2 ^ 63 - 1)%Z
  /\ fst (save_transcript "t3" "m2" "<p>x</p>" "gpt-4o-mini" "gpt-4o-mini"
            1000 100 db_m1_renamed) = Ok tt.
Proof.
  assert (H1 : (- 2 ^ 63 <= 1000 <= 2 ^ 63 - 1)%Z) by lia.
  assert (H2 : (- 2 ^ 63 <= 100 <= 2 ^ 63 - 1)%Z) by lia.
  split; [exact H1|]. split; [exact H2|].
  exact (proj1 (save_transcript_other_meetings_untouched "t3" "m2" "<p>x</p>"
                  "gpt-4o-mini" "gpt-4o-mini" 1000 100 db_m1_renamed) H1 H2).
Defined.

(** ** Meetings *)

(** The dict [get_meeting] builds from a meetings row and the transcripts
    rows of the meeting. *)
Lemma get_meeting_run meeting_id d :
  get_meeting meeting_id d
  = (Ok (option_map
           (fun m =>
              {| GetMeeting.id := Meetings.id m;
                 GetMeeting.title := Meetings.title m;
                 GetMeeting.created_at := Meetings.created_at m;
                 GetMeeting.updated_at := Meetings.updated_at m;
                 GetMeeting.transcripts :=
                   map (fun r =>
                          {| GetMeeting.t_id := meeting_id;
                             GetMeeting.text := Transcripts.transcript r;
                             GetMeeting.timestamp := Transcripts.timestamp r |})
                     (sql_where (transcripts_of meeting_id) (transcripts d)) |})
           (sql_fetchone (meeting_of meeting_id) (meetings d))), d).
Proof.
  unfold get_meeting, _get_connection, bind, query, open_connection.
  cbn [pending]. now destruct (sql_fetchone _ _).
Qed.

Lemma update_meeting_name_run now meeting_id meeting_name d :
  update_meeting_name now meeting_id meeting_name d
  = (Ok tt,
     {| meetings := sql_update (meeting_of meeting_id)
                      (rename_meeting meeting_name now) (meetings d);
        transcripts := transcripts d;
        summary_processes := summary_processes d;
        transcript_chunks := sql_update (chunks_of meeting_id)
                               (rename_chunks meeting_name) (transcript_chunks d);
        settings := settings d |}).
Proof. reflexivity. Qed.

Lemma update_meeting_title_run now meeting_id new_title d :
  update_meeting_title now meeting_id new_title d
  = (Ok tt,
     {| meetings := sql_update (meeting_of meeting_id)
                      (rename_meeting new_title now) (meetings d);
        transcripts := transcripts d;
        summary_processes := summary_processes d;
        transcript_chunks := transcript_chunks d;
        settings := settings d |}).
Proof. reflexivity. Qed.

(** The first row a WHERE clause selects, after an UPDATE with the same
    clause whose SET keeps the clause true. *)
Lemma fetchone_update_same {R : Type} (w : R -> bool) (f : R -> R) (t : list R) :
  (forall r, w r = true -> w (f r) = true) ->
  sql_fetchone w (sql_update w f t) = option_map f (sql_fetchone w t).
Proof.
  intros Hkeep. unfold sql_fetchone, sql_update.
  induction t as [|x t IH]; simpl; [reflexivity|].
  destruct (w x) eqn:Hx.
  - now rewrite (Hkeep x Hx).
  - rewrite Hx. exact IH.
Qed.

(** The first row another WHERE clause selects is not affected. *)
Lemma fetchone_update_other {R : Type} (w w' : R -> bool) (f : R -> R)
    (t : list R) :
  (forall r, w r = true -> w' r = false /\ w' (f r) = false) ->
  sql_fetchone w' (sql_update w f t) = sql_fetchone w' t.
Proof.
  intros Hother. unfold sql_fetchone, sql_update.
  induction t as [|x t IH]; simpl; [reflexivity|].
  destruct (w x) eqn:Hx.
  - destruct (Hother x Hx) as [-> ->]. exact IH.
  - destruct (w' x); [reflexivity|exact IH].
Qed.

Lemma meeting_of_rename meeting_id title now r :
  meeting_of meeting_id (rename_meeting title now r) = meeting_of meeting_id r.
Proof. reflexivity. Qed.

Lemma meeting_of_other meeting_id other r :
  other <> meeting_id ->
  meeting_of meeting_id r = true -> meeting_of other r = false.
Proof.
  unfold meeting_of. intros Hne Hr. apply String.eqb_eq in Hr.
  apply String.eqb_neq. congruence.
Qed.

(** What [get_meeting] shows after the meetings table went through the
    UPDATE both rename operations issue. *)
Lemma get_meeting_renamed now meeting_id title other d d' :
  meetings d' = sql_update (meeting_of meeting_id) (rename_meeting title now)
                  (meetings d) ->
  transcripts d' = transcripts d ->
  (forall m,
     fst (get_meeting meeting_id d) = Ok (Some m) ->
     fst (get_meeting meeting_id d')
     = Ok (Some {| GetMeeting.id := GetMeeting.id m;
                   GetMeeting.title := title;
                   GetMeeting.created_at := GetMeeting.created_at m;
                   GetMeeting.updated_at := now;
                   GetMeeting.transcripts := GetMeeting.transcripts m |}))
  /\ (fst (get_meeting meeting_id d) = Ok None ->
      fst (get_meeting meeting_id d') = Ok None)
  /\ (other <> meeting_id ->
      fst (get_meeting other d') = fst (get_meeting other d)).
Proof.
  intros Hm Ht. rewrite !get_meeting_run. cbn [fst]. rewrite Hm, Ht.
  split; [|split].
  - intros m. rewrite fetchone_update_same
      by (intros r Hr; now rewrite meeting_of_rename).
    destruct (sql_fetchone (meeting_of meeting_id) (meetings d)) as [r|];
      cbn [option_map]; [|discriminate].
    intros Heq. inversion Heq; subst m. reflexivity.
  - rewrite fetchone_update_same
      by (intros r Hr; now rewrite meeting_of_rename).
    destruct (sql_fetchone (meeting_of meeting_id) (meetings d)) as [r|];
      cbn [option_map]; [discriminate|reflexivity].
  - intros Hne. rewrite fetchone_update_other; [reflexivity|].
    intros r Hr. rewrite meeting_of_rename.
    split; now apply (meeting_of_other meeting_id).
Qed.

Lemma filter_pairs {A B : Type} (f : A -> bool) (a : A) (l : list B) :
  filter (fun ab => f (fst ab)) (map (pair a) l)
  = if f a then map (pair a) l else [].
Proof.
  induction l as [|b l IH]; simpl.
  - now destruct (f a).
  - rewrite IH. now destruct (f a).
Qed.

(** The join of [get_transcript_data], one working-buffer row at a time. *)
Lemma select_transcript_data_by_row meeting_id d :
  select_transcript_data meeting_id d
  = flat_map
      (fun t =>
         if chunks_of meeting_id t
         then map (pair t)
                (filter (fun p => TranscriptChunks.meeting_id t
                                  =? SummaryProcesses.meeting_id p)
                   (summary_processes d))
         else [])
      (transcript_chunks d).
Proof.
  unfold select_transcript_data, sql_join.
  induction (transcript_chunks d) as [|t ts IH]; [reflexivity|].
  cbn [flat_map]. rewrite filter_app, IH. f_equal.
  apply (filter_pairs (chunks_of meeting_id)).
Qed.

Lemma select_after_rename meeting_id meeting_name d d' :
  transcript_chunks d'
  = sql_update (chunks_of meeting_id) (rename_chunks meeting_name)
      (transcript_chunks d) ->
  summary_processes d' = summary_processes d ->
  select_transcript_data meeting_id d'
  = map (fun tp => (rename_chunks meeting_name (fst tp), snd tp))
      (select_transcript_data meeting_id d)
  /\ forall other, other <> meeting_id ->
       select_transcript_data other d' = select_transcript_data other d.
Proof.
  intros Hc Hp. split.
  - rewrite !select_transcript_data_by_row, Hc, Hp. clear Hc Hp.
    unfold sql_update.
    induction (transcript_chunks d) as [|t ts IH]; [reflexivity|].
    cbn [map flat_map]. rewrite map_app, IH. f_equal.
    destruct (chunks_of meeting_id t) eqn:Ht.
    + unfold chunks_of in *. cbn [rename_chunks TranscriptChunks.meeting_id].
      rewrite Ht, map_map. reflexivity.
    + now rewrite Ht.
  - intros other Hne. rewrite !select_transcript_data_by_row, Hc, Hp.
    clear Hc Hp. unfold sql_update.
    induction (transcript_chunks d) as [|t ts IH]; [reflexivity|].
    cbn [map flat_map]. rewrite IH. f_equal.
    destruct (chunks_of meeting_id t) eqn:Ht; [|reflexivity].
    unfold chunks_of in *. cbn [rename_chunks TranscriptChunks.meeting_id].
    apply String.eqb_eq in Ht.
    assert (Hno : (TranscriptChunks.meeting_id t =? other) = false)
      by (apply String.eqb_neq; congruence).
    now rewrite Hno.
Qed.

Lemma transcript_data_renamed meeting_name t p :
  dict_get "meeting_name" (transcript_data (rename_chunks meeting_name t) p)
  = Some (Text meeting_name)
  /\ forall key, key <> "meeting_name" ->
       dict_get key (transcript_data (rename_chunks meeting_name t) p)
       = dict_get key (transcript_data t p).
Proof.
  split; [reflexivity|].
  intros key Hkey. unfold transcript_data. cbn [dict_get].
  destruct ("meeting_id" =? key); [reflexivity|].
  assert (Hno : ("meeting_name" =? key) = false)
    by (apply String.eqb_neq; congruence).
  now rewrite Hno.
Qed.

(** X3.  [update_meeting_name] returns normally and renames the meeting in
    both views: [get_meeting] then shows the new title and the clock of the
    call as updated_at, with id, created_at and transcripts as before, and
    [get_transcript_data] shows the new name under meeting_name with every
    other entry as before.  Other meetings look the same in both views. *)
Theorem update_meeting_name_renames_both_views :
  forall now meeting_id meeting_name d,
    let d' := snd (update_meeting_name now meeting_id meeting_name d) in
    fst (update_meeting_name now meeting_id meeting_name d) = Ok tt
    /\ (forall m,
          fst (get_meeting meeting_id d) = Ok (Some m) ->
          fst (get_meeting meeting_id d')
          = Ok (Some {| GetMeeting.id := GetMeeting.id m;
                        GetMeeting.title := meeting_name;
                        GetMeeting.created_at := GetMeeting.created_at m;
                        GetMeeting.updated_at := now;
                        GetMeeting.transcripts := GetMeeting.transcripts m |}))
    /\ (forall data,
          fst (get_transcript_data meeting_id d) = Ok (Some data) ->
          exists data',
            fst (get_transcript_data meeting_id d') = Ok (Some data')
            /\ dict_get "meeting_name" data' = Some (Text meeting_name)
            /\ forall key, key <> "meeting_name" ->
                 dict_get key data' = dict_get key data)
    /\ (forall other,
          other <> meeting_id ->
          fst (get_meeting other d') = fst (get_meeting other d)
          /\ fst (get_transcript_data other d')
             = fst (get_transcript_data other d)).
Proof.
  intros now meeting_id meeting_name d d'. subst d'.
  rewrite update_meeting_name_run. cbn [fst snd].
  set (d' := {| meetings := _ |}).
  assert (Hm : meetings d' = sql_update (meeting_of meeting_id)
                               (rename_meeting meeting_name now) (meetings d))
    by reflexivity.
  assert (Ht : transcripts d' = transcripts d) by reflexivity.
  assert (Hc : transcript_chunks d'
               = sql_update (chunks_of meeting_id) (rename_chunks meeting_name)
                   (transcript_chunks d)) by reflexivity.
  assert (Hp : summary_processes d' = summary_processes d) by reflexivity.
  destruct (select_after_rename meeting_id meeting_name d d' Hc Hp)
    as [Hsel Hsel_other].
  clearbody d'.
  split; [reflexivity|]. split; [|split].
  - apply (get_meeting_renamed now meeting_id meeting_name meeting_id d d' Hm Ht).
  - intros data. rewrite !get_transcript_data_run. cbn [fst]. rewrite Hsel.
    destruct (select_transcript_data meeting_id d) as [|[t p] rows];
      [discriminate|].
    intros Heq. inversion Heq; subst data. cbn [map fst snd].
    eexists. split; [reflexivity|]. apply transcript_data_renamed.
  - intros other Hne. split.
    + now apply (get_meeting_renamed now meeting_id meeting_name other d d' Hm Ht).
    + rewrite !get_transcript_data_run. cbn [fst].
      now rewrite (Hsel_other other Hne).
Qed.

(** X4.  [update_meeting_title] renames the meeting for [get_meeting] as
    [update_meeting_name] does, but it leaves transcript_chunks alone: what
    [get_transcript_data] returns, its meeting_name included, is what it
    returned before the call, for every meeting. *)
Theorem update_meeting_title_keeps_buffer_name :
  forall now meeting_id new_title d,
    let d' := snd (update_meeting_title now meeting_id new_title d) in
    fst (update_meeting_title now meeting_id new_title d) = Ok tt
    /\ (forall any,
          fst (get_meeting any d')
          = fst (get_meeting any
                   (snd (update_meeting_name now meeting_id new_title d))))
    /\ transcript_chunks d' = transcript_chunks d
    /\ (forall any,
          fst (get_transcript_data any d') = fst (get_transcript_data any d)).
Proof.
  intros now meeting_id new_title d d'. subst d'.
  rewrite update_meeting_title_run, update_meeting_name_run. cbn [fst snd].
  split; [reflexivity|]. split; [|split].
  - intros any. now rewrite !get_meeting_run.
  - reflexivity.
  - intros any. rewrite !get_transcript_data_run. reflexivity.
Qed.

Lemma update_meeting_name_renames_both_views_witness :
  fst (get_meeting "m1" db_m1_ready)
  = Ok (Some {| GetMeeting.id := "m1";
                GetMeeting.title := "Standup";
                GetMeeting.created_at := "t0";
                GetMeeting.updated_at := "t0";
                GetMeeting.transcripts := [] |})
  /\ fst (get_meeting "m1" (snd (update_meeting_name "t3" "m1" "Weekly" db_m1_ready)))
     = Ok (Some {| GetMeeting.id := "m1";
                   GetMeeting.title := "Weekly";
                   GetMeeting.created_at := "t0";
                   GetMeeting.updated_at := "t3";
                   GetMeeting.transcripts := [] |}).
Proof.
  assert (H : fst (get_meeting "m1" db_m1_ready)
              = Ok (Some {| GetMeeting.id := "m1";
                            GetMeeting.title := "Standup";
                            GetMeeting.created_at := "t0";
                            GetMeeting.updated_at := "t0";
                            GetMeeting.transcripts := [] |}))
    by (vm_compute; reflexivity).
  split; [exact H|].
  exact (proj1 (proj2 (update_meeting_name_renames_both_views "t3" "m1" "Weekly"
                         db_m1_ready)) _ H).
Defined.

Lemma fetchone_none_all {R : Type} (w : R -> bool) (t : list R) :
  sql_fetchone w t = None -> forall r, In r t -> w r = false.
Proof. unfold sql_fetchone. apply find_none. Qed.

Lemma fetchone_found {R : Type} (w : R -> bool) (t : list R) (r : R) :
  sql_fetchone w t = Some r -> In r t /\ w r = true.
Proof. unfold sql_fetchone. apply find_some. Qed.

(** X5.  [save_meeting] keeps meeting ids pairwise distinct and titles
    pairwise distinct: when the meetings table has no two rows with the same
    id and no two rows with the same title, this still holds after the
    call, whether it inserted or raised. *)
Theorem save_meeting_keeps_ids_and_titles_distinct :
  forall now meeting_id title d,
    NoDup (map Meetings.id (meetings d)) ->
    NoDup (map Meetings.title (meetings d)) ->
    NoDup (map Meetings.id (meetings (snd (save_meeting now meeting_id title d))))
    /\ NoDup (map Meetings.title
                (meetings (snd (save_meeting now meeting_id title d)))).
Proof.
  intros now meeting_id title d Hids Htitles.
  destruct (sql_fetchone (id_or_title meeting_id title) (meetings d))
    as [r|] eqn:Hfetch.
  - apply fetchone_found in Hfetch. destruct Hfetch as [Hr Hw].
    rewrite save_meeting_conflict; [now split|].
    exists r. split; [assumption|].
    unfold id_or_title in Hw. apply orb_true_iff in Hw.
    destruct Hw as [H|H]; [left|right]; now apply String.eqb_eq.
  - pose proof (fetchone_none_all _ _ Hfetch) as Hnone.
    assert (Hfree : forall r, In r (meetings d) ->
                      Meetings.id r <> meeting_id /\ Meetings.title r <> title).
    { intros r Hr. specialize (Hnone r Hr). unfold id_or_title in Hnone.
      apply orb_false_iff in Hnone. destruct Hnone as [H1 H2].
      split; now apply String.eqb_neq. }
    rewrite (save_meeting_new now _ _ _ Hfree). cbn [snd].
    destruct d as [ms ts ps cs ss]; cbn [meetings set_meetings] in *.
    rewrite !map_app. cbn [map Meetings.id Meetings.title].
    split; (apply NoDup_app; [assumption|repeat constructor; intros []|]).
    + intros k Hin [<-|[]]. apply in_map_iff in Hin.
      destruct Hin as (r & Hk & Hr). destruct (Hfree r Hr). congruence.
    + intros k Hin [<-|[]]. apply in_map_iff in Hin.
      destruct Hin as (r & Hk & Hr). destruct (Hfree r Hr). congruence.
Qed.

Lemma save_meeting_keeps_ids_and_titles_distinct_witness :
  NoDup (map Meetings.id (meetings db_m1_ready))
  /\ NoDup (map Meetings.title (meetings db_m1_ready))
  /\ NoDup (map Meetings.title
              (meetings (snd (save_meeting "t5" "m2" "Standup" db_m1_ready)))).
Proof.
  assert (H1 : NoDup (map Meetings.id (meetings db_m1_ready)))
    by (vm_compute; constructor; [intros []|constructor]).
  assert (H2 : NoDup (map Meetings.title (meetings db_m1_ready)))
    by (vm_compute; constructor; [intros []|constructor]).
  split; [exact H1|]. split; [exact H2|].
  exact (proj2 (save_meeting_keeps_ids_and_titles_distinct "t5" "m2" "Standup"
                  db_m1_ready H1 H2)).
Defined.

Lemma delete_meeting_run meeting_id d :
  delete_meeting meeting_id d
  = (Ok true,
     {| meetings := sql_delete (meeting_of meeting_id) (meetings d);
        transcripts := sql_delete (transcripts_of meeting_id) (transcripts d);
        summary_processes :=
          sql_delete (process_of meeting_id) (summary_processes d);
        transcript_chunks :=
          sql_delete (chunks_of meeting_id) (transcript_chunks d);
        settings := settings d |}).
Proof. reflexivity. Qed.

Lemma delete_twice {R : Type} (w : R -> bool) (t : list R) :
  sql_delete w (sql_delete w t) = sql_delete w t.
Proof. unfold sql_delete. apply filter_twice. Qed.

Lemma where_deleted {R : Type} (w : R -> bool) (t : list R) :
  sql_where w (sql_delete w t) = [].
Proof. unfold sql_delete. apply where_not_where. Qed.

(** X6.  [delete_meeting] returns True and leaves no row of the meeting in
    meetings, transcripts, summary_processes and transcript_chunks; the rows
    of other meetings stay, in their order, and settings is unchanged.
    Deleting again changes nothing. *)
Theorem delete_meeting_removes_all_rows :
  forall meeting_id d,
    let d' := snd (delete_meeting meeting_id d) in
    fst (delete_meeting meeting_id d) = Ok true
    /\ sql_where (meeting_of meeting_id) (meetings d') = []
    /\ sql_where (transcripts_of meeting_id) (transcripts d') = []
    /\ processes_for meeting_id d' = []
    /\ chunks_for meeting_id d' = []
    /\ meetings d'
       = sql_where (fun r => negb (meeting_of meeting_id r)) (meetings d)
    /\ transcripts d'
       = sql_where (fun r => negb (transcripts_of meeting_id r)) (transcripts d)
    /\ summary_processes d'
       = sql_where (fun r => negb (process_of meeting_id r)) (summary_processes d)
    /\ transcript_chunks d'
       = sql_where (fun r => negb (chunks_of meeting_id r)) (transcript_chunks d)
    /\ settings d' = settings d
    /\ delete_meeting meeting_id d' = (Ok true, d').
Proof.
  intros meeting_id d d'. subst d'. rewrite !delete_meeting_run.
  cbn [fst snd meetings transcripts summary_processes transcript_chunks settings].
  unfold processes_for, chunks_for.
  cbn [meetings transcripts summary_processes transcript_chunks settings].
  rewrite !where_deleted, !delete_twice. repeat split.
Qed.

(** X7.  After [delete_meeting], [get_meeting] and [get_transcript_data]
    return None for the meeting, and its id is free again: [save_meeting]
    with that id inserts, provided no other meeting holds the title. *)
Theorem deleted_meeting_is_gone :
  forall now meeting_id title d,
    let d' := snd (delete_meeting meeting_id d) in
    fst (get_meeting meeting_id d') = Ok None
    /\ fst (get_transcript_data meeting_id d') = Ok None
    /\ ((forall r, In r (meetings d) ->
                   Meetings.id r <> meeting_id -> Meetings.title r <> title) ->
        fst (save_meeting now meeting_id title d') = Ok true).
Proof.
  intros now meeting_id title d d'. subst d'. rewrite delete_meeting_run.
  cbn [snd]. split; [|split].
  - rewrite get_meeting_run. cbn [fst meetings].
    rewrite fetchone_none; [reflexivity|].
    intros r Hr. apply filter_In in Hr. destruct Hr as [_ Hr].
    now destruct (meeting_of meeting_id r).
  - rewrite get_transcript_data_run. cbn [fst].
    match goal with |- context [select_transcript_data ?m ?x] =>
      destruct (select_transcript_data m x) as [|[t p] rows] eqn:Hsel;
        [reflexivity|];
      assert (Hne : select_transcript_data m x <> [])
        by (rewrite Hsel; discriminate)
    end.
    apply select_transcript_data_rows in Hne.
    destruct Hne as [_ (p' & Hp' & Hid)]. cbn [summary_processes] in Hp'.
    apply filter_In in Hp'. destruct Hp' as [_ Hp']. unfold process_of in Hp'.
    apply negb_true_iff, String.eqb_neq in Hp'. contradiction.
  - intros Hfree. rewrite save_meeting_new; [reflexivity|].
    cbn [meetings]. intros r Hr. apply filter_In in Hr. destruct Hr as [Hr Hid].
    unfold meeting_of in Hid. apply negb_true_iff, String.eqb_neq in Hid.
    split; [exact Hid|now apply Hfree].
Qed.

Lemma deleted_meeting_is_gone_witness :
  (forall r, In r (meetings db_m1_ready) ->
             Meetings.id r <> "m1" -> Meetings.title r <> "Standup")
  /\ fst (save_meeting "t9" "m1" "Standup" (snd (delete_meeting "m1" db_m1_ready)))
     = Ok true.
Proof.
  assert (H : forall r, In r (meetings db_m1_ready) ->
                        Meetings.id r <> "m1" -> Meetings.title r <> "Standup").
  { intros r [<-|[]] Hid. now elim Hid. }
  split; [exact H|].
  exact (proj2 (proj2 (deleted_meeting_is_gone "t9" "m1" "Standup" db_m1_ready))
           H).
Defined.

Lemma save_meeting_transcript_run meeting_id transcript timestamp summary
    action_items key_points d :
  save_meeting_transcript meeting_id transcript timestamp summary action_items
    key_points d
  = (Ok true,
     set_transcripts
       (transcripts d
          ++ [new_transcript meeting_id transcript timestamp summary
                action_items key_points])%list d).
Proof. reflexivity. Qed.

(** X8.  Creating a meeting and deleting it again is a round trip: on a
    database that has no row for the id in meetings, transcripts,
    summary_processes and transcript_chunks and no meeting with the title,
    [save_meeting] followed by [delete_meeting] gives back the database. *)
Theorem save_then_delete_meeting_round_trip :
  forall now meeting_id title d,
    (forall r, In r (meetings d) ->
               Meetings.id r <> meeting_id /\ Meetings.title r <> title) ->
    (forall r, In r (transcripts d) -> Transcripts.meeting_id r <> meeting_id) ->
    (forall r, In r (summary_processes d) ->
               SummaryProcesses.meeting_id r <> meeting_id) ->
    (forall r, In r (transcript_chunks d) ->
               TranscriptChunks.meeting_id r <> meeting_id) ->
    fst (save_meeting now meeting_id title d) = Ok true
    /\ delete_meeting meeting_id (snd (save_meeting now meeting_id title d))
       = (Ok true, d).
Proof.
  intros now meeting_id title d Hm Ht Hp Hc.
  rewrite (save_meeting_new now _ _ _ Hm), delete_meeting_run. cbn [fst snd].
  split; [reflexivity|]. f_equal.
  destruct d as [ms ts ps cs ss];
    cbn [set_meetings meetings transcripts summary_processes transcript_chunks
         settings] in *.
  unfold sql_delete. rewrite filter_app. cbn [filter].
  unfold meeting_of at 2. cbn [Meetings.id]. rewrite String.eqb_refl.
  cbn [negb]. rewrite app_nil_r.
  rewrite !filter_all; [reflexivity| | | |].
  - intros r Hr. unfold chunks_of. apply negb_true_iff, String.eqb_neq.
    now apply Hc.
  - intros r Hr. unfold process_of. apply negb_true_iff, String.eqb_neq.
    now apply Hp.
  - intros r Hr. unfold transcripts_of. apply negb_true_iff, String.eqb_neq.
    now apply Ht.
  - intros r Hr. unfold meeting_of. apply negb_true_iff, String.eqb_neq.
    now apply (Hm r Hr).
Qed.

Lemma save_then_delete_meeting_round_trip_witness :
  (forall r, In r (meetings db_m1_ready) ->
             Meetings.id r <> "m2" /\ Meetings.title r <> "Retro")
  /\ delete_meeting "m2" (snd (save_meeting "t5" "m2" "Retro" db_m1_ready))
     = (Ok true, db_m1_ready).
Proof.
  assert (Hm : forall r, In r (meetings db_m1_ready) ->
                 Meetings.id r <> "m2" /\ Meetings.title r <> "Retro").
  { intros r [<-|[]]. split; discriminate. }
  split; [exact Hm|].
  refine (proj2 (save_then_delete_meeting_round_trip "t5" "m2" "Retro"
                   db_m1_ready Hm _ _ _)).
  - intros r [].
  - intros r [<-|[]]. discriminate.
  - intros r [<-|[]]. discriminate.
Defined.

(** X9.  [save_meeting_transcript] always returns True, also when no
    meeting has the id.  When [get_meeting] showed the meeting, it shows it
    afterwards with the new transcript added at the end of its list, under
    the id of the meeting; when it showed None it still shows None; what it
    shows for other meetings does not change. *)
Theorem save_meeting_transcript_appends :
  forall meeting_id transcript timestamp summary action_items key_points d,
    let d' := snd (save_meeting_transcript meeting_id transcript timestamp
                     summary action_items key_points d) in
    fst (save_meeting_transcript meeting_id transcript timestamp summary
           action_items key_points d) = Ok true
    /\ (forall m,
          fst (get_meeting meeting_id d) = Ok (Some m) ->
          fst (get_meeting meeting_id d')
          = Ok (Some {| GetMeeting.id := GetMeeting.id m;
                        GetMeeting.title := GetMeeting.title m;
                        GetMeeting.created_at := GetMeeting.created_at m;
                        GetMeeting.updated_at := GetMeeting.updated_at m;
                        GetMeeting.transcripts :=
                          (GetMeeting.transcripts m
                           ++ [{| GetMeeting.t_id := meeting_id;
                                  GetMeeting.text := transcript;
                                  GetMeeting.timestamp := timestamp |}])%list |}))
    /\ (fst (get_meeting meeting_id d) = Ok None ->
        fst (get_meeting meeting_id d') = Ok None)
    /\ (forall other,
          other <> meeting_id ->
          fst (get_meeting other d') = fst (get_meeting other d)).
Proof.
  intros meeting_id transcript timestamp summary action_items key_points d d'.
  subst d'. rewrite save_meeting_transcript_run. cbn [fst snd].
  rewrite !get_meeting_run. cbn [fst].
  destruct d as [ms ts ps cs ss];
    cbn [set_transcripts meetings transcripts].
  split; [reflexivity|]. split; [|split].
  - intros m. destruct (sql_fetchone (meeting_of meeting_id) ms) as [r|];
      cbn [option_map]; [|discriminate].
    intros Heq. inversion Heq; subst m. cbn [GetMeeting.id GetMeeting.title
      GetMeeting.created_at GetMeeting.updated_at GetMeeting.transcripts].
    unfold sql_where. rewrite filter_app, map_app. cbn [filter].
    unfold transcripts_of at 2. cbn [Transcripts.meeting_id new_transcript].
    rewrite String.eqb_refl. reflexivity.
  - destruct (sql_fetchone (meeting_of meeting_id) ms); [discriminate|reflexivity].
  - intros other Hne. rewrite !get_meeting_run.
    cbn [fst set_transcripts meetings transcripts].
    unfold sql_where. rewrite filter_app. cbn [filter].
    unfold transcripts_of at 2. cbn [Transcripts.meeting_id new_transcript].
    assert (Hno : (meeting_id =? other) = false) by (apply String.eqb_neq; congruence).
    rewrite Hno, app_nil_r. reflexivity.
Qed.

Lemma save_meeting_transcript_appends_witness :
  fst (get_meeting "m1" db_m1_ready)
  = Ok (Some {| GetMeeting.id := "m1";
                GetMeeting.title := "Standup";
                GetMeeting.created_at := "t0";
                GetMeeting.updated_at := "t0";
                GetMeeting.transcripts := [] |})
  /\ fst (get_meeting "m1"
           (snd (save_meeting_transcript "m1" "hello" "00:01" "" "" ""
                   db_m1_ready)))
     = Ok (Some {| GetMeeting.id := "m1";
                   GetMeeting.title := "Standup";
                   GetMeeting.created_at := "t0";
                   GetMeeting.updated_at := "t0";
                   GetMeeting.transcripts :=
                     [{| GetMeeting.t_id := "m1";
                         GetMeeting.text := "hello";
                         GetMeeting.timestamp := "00:01" |}] |}).
Proof.
  assert (H : fst (get_meeting "m1" db_m1_ready)
              = Ok (Some {| GetMeeting.id := "m1";
                            GetMeeting.title := "Standup";
                            GetMeeting.created_at := "t0";
                            GetMeeting.updated_at := "t0";
                            GetMeeting.transcripts := [] |}))
    by (vm_compute; reflexivity).
  split; [exact H|].
  exact (proj1 (proj2 (save_meeting_transcript_appends "m1" "hello" "00:01"
                         "" "" "" db_m1_ready)) _ H).
Defined.

(** X10.  [get_meeting] only reads: the database is unchanged.  It returns
    None exactly when meetings has no row with the id; otherwise the dict
    carries the requested id, and lists one transcript per transcripts row
    of the meeting. *)
Theorem get_meeting_reads_the_meeting :
  forall meeting_id d,
    snd (get_meeting meeting_id d) = d
    /\ (fst (get_meeting meeting_id d) = Ok None
        <-> forall r, In r (meetings d) -> Meetings.id r <> meeting_id)
    /\ (forall m,
          fst (get_meeting meeting_id d) = Ok (Some m) ->
          GetMeeting.id m = meeting_id
          /\ length (GetMeeting.transcripts m)
             = sql_rowcount (transcripts_of meeting_id) (transcripts d)
          /\ Forall (fun t => GetMeeting.t_id t = meeting_id)
               (GetMeeting.transcripts m)).
Proof.
  intros meeting_id d. rewrite get_meeting_run. cbn [fst snd].
  split; [reflexivity|]. split.
  - destruct (sql_fetchone (meeting_of meeting_id) (meetings d)) as [r|] eqn:Hf;
      cbn [option_map].
    + split; [discriminate|]. intros Hnone.
      apply fetchone_found in Hf. destruct Hf as [Hr Hid].
      unfold meeting_of in Hid. apply String.eqb_eq in Hid.
      now elim (Hnone r Hr).
    + split; [|reflexivity]. intros _ r Hr.
      pose proof (fetchone_none_all _ _ Hf r Hr) as Hid.
      unfold meeting_of in Hid. now apply String.eqb_neq.
  - intros m.
    destruct (sql_fetchone (meeting_of meeting_id) (meetings d)) as [r|] eqn:Hf;
      cbn [option_map]; [|discriminate].
    intros Heq. inversion Heq; subst m.
    cbn [GetMeeting.id GetMeeting.transcripts].
    apply fetchone_found in Hf. destruct Hf as [_ Hid].
    unfold meeting_of in Hid. apply String.eqb_eq in Hid.
    split; [exact Hid|]. split; [now rewrite length_map|].
    apply Forall_map. apply Forall_forall. reflexivity.
Qed.

Lemma get_meeting_reads_the_meeting_witness :
  (forall r, In r (meetings db_m1_ready) -> Meetings.id r <> "m7")
  /\ fst (get_meeting "m7" db_m1_ready) = Ok None.
Proof.
  assert (H : forall r, In r (meetings db_m1_ready) -> Meetings.id r <> "m7").
  { intros r [<-|[]]. discriminate. }
  split; [exact H|].
  exact (proj2 (proj1 (proj2 (get_meeting_reads_the_meeting "m7" db_m1_ready))) H).
Defined.

(** ** Settings, keys and the environment *)

Lemma settings_of_set_key col v r :
  settings_of "1" (set_key col v r) = settings_of "1" r.
Proof. now destruct col. Qed.

Lemma key_of_set_key col v r : key_of col (set_key col v r) = v.
Proof. now destruct col. Qed.

Lemma key_of_set_other col col' v r :
  col' <> col -> key_of col' (set_key col v r) = key_of col' r.
Proof. intros Hne. destruct col, col'; try reflexivity; congruence. Qed.

Lemma existsb_fetchone {R : Type} (w : R -> bool) (t : list R) :
  existsb w t = true <-> exists r, sql_fetchone w t = Some r.
Proof.
  unfold sql_fetchone. induction t as [|x t IH]; simpl.
  - split; [discriminate|intros [r Hr]; discriminate].
  - destruct (w x); simpl; [split; [now exists x|reflexivity]|exact IH].
Qed.

(** The three key operations for a provider of the list. *)
Lemma api_key_ops_run provider :
  In provider provider_list ->
  exists col,
    api_key_name provider = Some col
    /\ (forall api_key d,
          save_api_key api_key provider d
          = (Ok tt,
             set_settings
               (sql_update (settings_of "1") (set_key col (Some api_key))
                  (settings d)) d))
    /\ (forall d,
          delete_api_key provider d
          = (Ok tt,
             set_settings
               (sql_update (settings_of "1") (set_key col None) (settings d)) d))
    /\ (forall d, get_api_key provider d = (Ok (stored_key col d), d)).
Proof.
  intros Hin. destruct (in_provider_list _ Hin) as [Hlist (col & Hcol)].
  exists col. split; [exact Hcol|].
  unfold save_api_key, delete_api_key, get_api_key. rewrite Hlist, Hcol.
  repeat split.
Qed.

(** The key [get_api_key] finds after an UPDATE of the settings row '1'
    that keeps its id. *)
Lemma stored_key_update col (f : Settings.row -> Settings.row) d :
  (forall r, settings_of "1" (f r) = settings_of "1" r) ->
  stored_key col
    (set_settings (sql_update (settings_of "1") f (settings d)) d)
  = first_if_truthy
      (option_map (fun r => key_of col (f r))
         (sql_fetchone (settings_of "1") (settings d))).
Proof.
  intros Hid. unfold stored_key. destruct d as [ms ts ps cs ss].
  cbn [set_settings settings].
  rewrite fetchone_update_same by (intros r Hr; now rewrite Hid).
  now destruct (sql_fetchone (settings_of "1") ss).
Qed.

(** X11.  Saving and reading a key for a provider of the list: after
    [save_api_key] with a non-empty key on a database that has the settings
    row '1', [get_api_key] returns that key; after saving the empty string,
    and after [delete_api_key], it returns None; and when there is no
    settings row '1' the saved key is not there to read. *)
Theorem api_key_round_trip :
  forall provider d,
    In provider provider_list ->
    (forall api_key,
       api_key <> "" ->
       existsb (settings_of "1") (settings d) = true ->
       fst (get_api_key provider (snd (save_api_key api_key provider d)))
       = Ok (Some api_key))
    /\ fst (get_api_key provider (snd (save_api_key "" provider d))) = Ok None
    /\ fst (get_api_key provider (snd (delete_api_key provider d))) = Ok None
    /\ (forall api_key,
          existsb (settings_of "1") (settings d) = false ->
          fst (get_api_key provider (snd (save_api_key api_key provider d)))
          = Ok None).
Proof.
  intros provider d Hin.
  destruct (api_key_ops_run provider Hin) as (col & _ & Hsave & Hdel & Hget).
  split; [|split; [|split]].
  - intros api_key Hne Hrow. rewrite Hsave, Hget. cbn [fst snd].
    rewrite stored_key_update by apply settings_of_set_key.
    apply existsb_fetchone in Hrow. destruct Hrow as [r ->].
    cbn [option_map]. rewrite key_of_set_key. cbn [first_if_truthy].
    destruct api_key; [congruence|reflexivity].
  - rewrite Hsave, Hget. cbn [fst snd].
    rewrite stored_key_update by apply settings_of_set_key.
    destruct (sql_fetchone (settings_of "1") (settings d)); [|reflexivity].
    cbn [option_map]. now rewrite key_of_set_key.
  - rewrite Hdel, Hget. cbn [fst snd].
    rewrite stored_key_update by apply settings_of_set_key.
    destruct (sql_fetchone (settings_of "1") (settings d)); [|reflexivity].
    cbn [option_map]. now rewrite key_of_set_key.
  - intros api_key Hrow. rewrite Hsave, Hget. cbn [fst snd].
    rewrite stored_key_update by apply settings_of_set_key.
    destruct (sql_fetchone (settings_of "1") (settings d)) as [r|] eqn:Hf;
      [|reflexivity].
    assert (Hex : existsb (settings_of "1") (settings d) = true)
      by (apply existsb_fetchone; now exists r).
    congruence.
Qed.

Lemma api_key_round_trip_witness :
  In "openai" provider_list
  /\ "sk-123" <> ""
  /\ existsb (settings_of "1") (settings db_custom_settings) = true
  /\ fst (get_api_key "openai" (snd (save_api_key "sk-123" "openai"
                                       db_custom_settings)))
     = Ok (Some "sk-123").
Proof.
  assert (Hin : In "openai" provider_list) by (simpl; tauto).
  assert (Hne : "sk-123" <> "") by discriminate.
  split; [exact Hin|]. split; [exact Hne|]. split; [reflexivity|].
  exact (proj1 (api_key_round_trip "openai" db_custom_settings Hin)
           "sk-123" Hne eq_refl).
Defined.

Lemma api_key_name_injective p q cp cq :
  api_key_name p = Some cp -> api_key_name q = Some cq -> p <> q -> cp <> cq.
Proof.
  unfold api_key_name. intros Hp Hq Hne Heq. subst cq.
  destruct (p =? "openai") eqn:P1;
    [apply String.eqb_eq in P1|
     destruct (p =? "claude") eqn:P2;
       [apply String.eqb_eq in P2|
        destruct (p =? "groq") eqn:P3;
          [apply String.eqb_eq in P3|
           destruct (p =? "ollama") eqn:P4;
             [apply String.eqb_eq in P4|discriminate]]]];
  (destruct (q =? "openai") eqn:Q1;
    [apply String.eqb_eq in Q1|
     destruct (q =? "claude") eqn:Q2;
       [apply String.eqb_eq in Q2|
        destruct (q =? "groq") eqn:Q3;
          [apply String.eqb_eq in Q3|
           destruct (q =? "ollama") eqn:Q4;
             [apply String.eqb_eq in Q4|discriminate]]]]);
  congruence.
Qed.

(** X12.  The keys of different providers do not interfere: for two
    different providers of the list, saving or deleting the key of one
    leaves what [get_api_key] returns for the other unchanged. *)
Theorem api_keys_are_independent :
  forall provider other api_key d,
    In provider provider_list ->
    In other provider_list ->
    provider <> other ->
    fst (get_api_key other (snd (save_api_key api_key provider d)))
    = fst (get_api_key other d)
    /\ fst (get_api_key other (snd (delete_api_key provider d)))
       = fst (get_api_key other d).
Proof.
  intros provider other api_key d Hp Ho Hne.
  destruct (api_key_ops_run provider Hp) as (cp & Hcp & Hsave & Hdel & _).
  destruct (api_key_ops_run other Ho) as (co & Hco & _ & _ & Hget).
  assert (Hcol : co <> cp).
  { intros Heq. apply (api_key_name_injective provider other cp co Hcp Hco Hne).
    congruence. }
  rewrite Hsave, Hdel, !Hget. cbn [fst snd].
  rewrite !stored_key_update by apply settings_of_set_key.
  unfold stored_key.
  destruct (sql_fetchone (settings_of "1") (settings d)); [|now split].
  cbn [option_map]. now rewrite !key_of_set_other.
Qed.

Lemma api_keys_are_independent_witness :
  In "openai" provider_list /\ In "claude" provider_list /\ "openai" <> "claude"
  /\ fst (get_api_key "claude" (snd (delete_api_key "openai" db_custom_settings)))
     = fst (get_api_key "claude" db_custom_settings).
Proof.
  assert (H1 : In "openai" provider_list) by (simpl; tauto).
  assert (H2 : In "claude" provider_list) by (simpl; tauto).
  assert (H3 : "openai" <> "claude") by discriminate.
  split; [exact H1|]. split; [exact H2|]. split; [exact H3|].
  exact (proj2 (api_keys_are_independent "openai" "claude" "" db_custom_settings
                  H1 H2 H3)).
Defined.

Lemma save_model_config_run provider model whisperModel d :
  save_model_config provider model whisperModel d
  = (Ok tt,
     match settings d with
     | [] => set_settings [new_settings "1" provider model whisperModel] d
     | _ :: _ =>
         set_settings
           (sql_update (settings_of "1")
              (set_model_config provider model whisperModel) (settings d)) d
     end).
Proof.
  destruct d as [ms ts ps cs ss]. now destruct ss.
Qed.

Lemma get_model_config_run d :
  get_model_config d
  = (Ok (option_map model_config
           (sql_fetchone (settings_of "1") (settings d))), d).
Proof. reflexivity. Qed.

(** X13.  Saving and reading the model configuration: on a database whose
    settings table is empty or has the row '1', [save_model_config] returns
    normally and [get_model_config] then returns the provider, model and
    whisperModel that were saved.  On a settings table that has rows but not
    the row '1', [save_model_config] returns normally and writes nothing,
    and [get_model_config] returns None. *)
Theorem model_config_round_trip :
  forall provider model whisperModel d,
    fst (save_model_config provider model whisperModel d) = Ok tt
    /\ (settings d = [] \/ existsb (settings_of "1") (settings d) = true ->
        fst (get_model_config
               (snd (save_model_config provider model whisperModel d)))
        = Ok (Some [("provider", Text provider);
                    ("model", Text model);
                    ("whisperModel", Text whisperModel)]))
    /\ (settings d <> [] ->
        existsb (settings_of "1") (settings d) = false ->
        snd (save_model_config provider model whisperModel d) = d
        /\ fst (get_model_config d) = Ok None).
Proof.
  intros provider model whisperModel d.
  rewrite save_model_config_run. cbn [fst snd].
  split; [reflexivity|]. split.
  - intros Hcase. rewrite get_model_config_run. cbn [fst].
    destruct d as [ms ts ps cs ss]; cbn [settings set_settings] in *.
    destruct ss as [|s0 ss]; [reflexivity|].
    destruct Hcase as [Hnil|Hrow]; [discriminate|].
    cbn [set_settings settings].
    rewrite fetchone_update_same by (intros r Hr; exact Hr).
    apply existsb_fetchone in Hrow. destruct Hrow as [r ->]. reflexivity.
  - intros Hne Hrow.
    destruct d as [ms ts ps cs ss]; cbn [settings set_settings] in *.
    destruct ss as [|s0 ss]; [congruence|].
    pose proof (existsb_where (settings_of "1") (s0 :: ss)) as Hw.
    apply Hw in Hrow.
    split.
    + unfold set_settings. cbn [meetings transcripts summary_processes
        transcript_chunks settings]. f_equal. apply sql_update_none.
      intros r Hr. destruct (settings_of "1" r) eqn:H1; [|reflexivity].
      assert (Hin : In r (sql_where (settings_of "1") (s0 :: ss)))
        by (apply filter_In; now split).
      rewrite Hrow in Hin. contradiction.
    + rewrite get_model_config_run. cbn [fst settings].
      rewrite fetchone_none; [reflexivity|].
      intros r Hr. destruct (settings_of "1" r) eqn:H1; [|reflexivity].
      assert (Hin : In r (sql_where (settings_of "1") (s0 :: ss)))
        by (apply filter_In; now split).
      rewrite Hrow in Hin. contradiction.
Qed.

Lemma model_config_round_trip_witness :
  (settings db_custom_settings = []
   \/ existsb (settings_of "1") (settings db_custom_settings) = true)
  /\ fst (get_model_config
           (snd (save_model_config "groq" "llama-3" "whisper-1"
                   db_custom_settings)))
     = Ok (Some [("provider", Text "groq");
                 ("model", Text "llama-3");
                 ("whisperModel", Text "whisper-1")]).
Proof.
  assert (H : settings db_custom_settings = []
              \/ existsb (settings_of "1") (settings db_custom_settings) = true)
    by (right; reflexivity).
  split; [exact H|].
  exact (proj1 (proj2 (model_config_round_trip "groq" "llama-3" "whisper-1"
                         db_custom_settings)) H).
Defined.

(** X14.  The model configuration and the keys are stored side by side and
    do not interfere: [save_model_config] leaves what [get_api_key] returns
    for every provider of the list unchanged, and [save_api_key] and
    [delete_api_key], with any provider string, leave what
    [get_model_config] returns unchanged. *)
Theorem model_config_and_keys_are_independent :
  forall d,
    (forall provider model whisperModel other,
       In other provider_list ->
       fst (get_api_key other
              (snd (save_model_config provider model whisperModel d)))
       = fst (get_api_key other d))
    /\ (forall api_key provider,
          fst (get_model_config (snd (save_api_key api_key provider d)))
          = fst (get_model_config d))
    /\ (forall provider,
          fst (get_model_config (snd (delete_api_key provider d)))
          = fst (get_model_config d)).
Proof.
  intros d.
  assert (Hkeys : forall col v d0,
            fst (get_model_config
                   (set_settings
                      (sql_update (settings_of "1") (set_key col v)
                         (settings d0)) d0))
            = fst (get_model_config d0)).
  { intros col v d0. rewrite !get_model_config_run. cbn [fst].
    destruct d0 as [ms ts ps cs ss]; cbn [set_settings settings].
    rewrite fetchone_update_same
      by (intros r Hr; now rewrite settings_of_set_key).
    destruct (sql_fetchone (settings_of "1") ss) as [r|]; [|reflexivity].
    cbn [option_map]. now destruct col. }
  split; [|split].
  - intros provider model whisperModel other Hin.
    destruct (api_key_ops_run other Hin) as (col & _ & _ & _ & Hget).
    rewrite !Hget, save_model_config_run. cbn [fst snd].
    destruct (settings d) as [|s0 ss] eqn:Hs.
    + unfold stored_key. destruct d as [ms ts ps cs ss0].
      cbn [set_settings settings] in *. subst ss0. now destruct col.
    + rewrite <- Hs. rewrite stored_key_update by reflexivity.
      unfold stored_key.
      destruct (sql_fetchone (settings_of "1") (settings d)); [|reflexivity].
      cbn [option_map]. now destruct col.
  - intros api_key provider. unfold save_api_key.
    destruct (not_in provider provider_list); [reflexivity|].
    destruct (api_key_name provider) as [col|]; [|reflexivity].
    rewrite write_key_run. cbn [snd]. apply Hkeys.
  - intros provider. unfold delete_api_key.
    destruct (not_in provider provider_list); [reflexivity|].
    destruct (api_key_name provider) as [col|]; [|reflexivity].
    rewrite write_key_run. cbn [snd]. apply Hkeys.
Qed.

Lemma model_config_and_keys_are_independent_witness :
  In "claude" provider_list
  /\ fst (get_api_key "claude"
           (snd (save_model_config "groq" "llama-3" "whisper-1"
                   db_custom_settings)))
     = fst (get_api_key "claude" db_custom_settings).
Proof.
  assert (H : In "claude" provider_list) by (simpl; tauto).
  split; [exact H|].
  exact (proj1 (model_config_and_keys_are_independent db_custom_settings)
           "groq" "llama-3" "whisper-1" "claude" H).
Defined.

(** *** The sync with the environment *)

Lemma set_key_same col v r :
  key_of col r = Some v -> set_key col (Some v) r = r.
Proof. destruct r, col; simpl; intros ->; reflexivity. Qed.

(** Restricting the UPDATE to the rows whose key differs does not change
    its result. *)
Lemma update_differs col v t :
  sql_update (differs col v) (set_key col (Some v)) t
  = sql_update (settings_of "1") (set_key col (Some v)) t.
Proof.
  unfold sql_update. apply map_ext. intros r. unfold differs.
  destruct (settings_of "1" r); [|reflexivity]. cbn [andb].
  destruct (key_of col r) as [k|] eqn:Hk; [|reflexivity].
  destruct (k =? v) eqn:Hkv; [|reflexivity]. cbn [negb].
  apply String.eqb_eq in Hkv. subst k. symmetry. now apply set_key_same.
Qed.

Lemma settings_of_with_env_key key_env col r :
  settings_of "1" (with_env_key key_env col r) = settings_of "1" r.
Proof.
  unfold with_env_key. destruct key_env as [v|]; [|reflexivity].
  destruct (str_truthy v); [apply settings_of_set_key|reflexivity].
Qed.

Lemma sql_update_id {R : Type} (w : R -> bool) (t : list R) :
  sql_update w (fun r => r) t = t.
Proof.
  unfold sql_update. induction t as [|x t IH]; simpl; [reflexivity|].
  rewrite IH. now destruct (w x).
Qed.

(** One step of the sync on a connection: the uncommitted database gets
    the UPDATE, nothing is committed, and [made_changes] stays false only
    when no row changed. *)
Lemma sync_key_run key_env col made_changes c :
  exists made_changes' c',
    sync_key key_env col made_changes c = (Ok made_changes', c')
    /\ committed c' = committed c
    /\ pending c' = sync_one key_env col (pending c)
    /\ (made_changes = true -> made_changes' = true)
    /\ (made_changes' = false -> pending c' = pending c).
Proof.
  unfold sync_key, sync_one, with_env_key.
  destruct key_env as [v|]; cbn [opt_str_truthy].
  - destruct (str_truthy v).
    + unfold bind, execute_cursor, ret.
      eexists. eexists. split; [reflexivity|]. cbn [committed pending].
      split; [reflexivity|]. split; [now rewrite update_differs|].
      split.
      * intros ->. now destruct (0 <? _)%nat.
      * destruct (0 <? sql_rowcount (differs col v) (settings (pending c)))%nat
          eqn:Hcount; [discriminate|]. intros _.
        apply Nat.ltb_ge in Hcount.
        assert (Hzero : sql_rowcount (differs col v) (settings (pending c)) = 0)
          by lia.
        rewrite (sql_update_none _ _ _ (sql_rowcount_zero _ _ Hzero)).
        now destruct (pending c).
    + exists made_changes, c. unfold ret.
      rewrite sql_update_id. destruct (pending c); repeat split; auto.
  - exists made_changes, c. unfold ret.
    rewrite sql_update_id. destruct (pending c); repeat split; auto.
Qed.

Lemma sql_update_twice {R : Type} (w : R -> bool) (f g : R -> R) (t : list R) :
  (forall r, w (f r) = w r) ->
  sql_update w g (sql_update w f t) = sql_update w (fun r => g (f r)) t.
Proof.
  intros Hw. unfold sql_update. rewrite map_map. apply map_ext. intros r.
  destruct (w r) eqn:Hr; [now rewrite Hw, Hr|now rewrite Hr].
Qed.

(** The sync always returns normally, and the database it leaves is the
    old one with the row '1' of settings synced. *)
Lemma sync_env_vars_to_db_run env d :
  sync_env_vars_to_db env d
  = (Ok tt,
     set_settings (sql_update (settings_of "1") (synced env) (settings d)) d).
Proof.
  assert (Hform :
    sync_one (GROQ_API_KEY env) groqApiKey
      (sync_one (ANTHROPIC_API_KEY env) anthropicApiKey
         (sync_one (OPENAI_API_KEY env) openaiApiKey d))
    = set_settings (sql_update (settings_of "1") (synced env) (settings d)) d).
  { unfold sync_one, synced. destruct d as [ms ts ps cs ss].
    cbn [set_settings settings meetings transcripts summary_processes
         transcript_chunks].
    rewrite !sql_update_twice
      by (intros r; now rewrite ?settings_of_with_env_key).
    reflexivity. }
  rewrite <- Hform.
  unfold sync_env_vars_to_db, try_except, _get_connection, bind.
  destruct (sync_key_run (OPENAI_API_KEY env) openaiApiKey false
              (open_connection d))
    as (m1 & c1 & -> & Hc1 & Hp1 & _ & Hsame1).
  destruct (sync_key_run (ANTHROPIC_API_KEY env) anthropicApiKey m1 c1)
    as (m2 & c2 & -> & Hc2 & Hp2 & Hmono2 & Hsame2).
  destruct (sync_key_run (GROQ_API_KEY env) groqApiKey m2 c2)
    as (m3 & c3 & -> & Hc3 & Hp3 & Hmono3 & Hsame3).
  cbn [open_connection committed pending] in *.
  destruct m3.
  - unfold commit. cbn [committed]. now rewrite Hp3, Hp2, Hp1.
  - unfold ret. rewrite <- Hp1, <- Hp2, <- Hp3.
    assert (Hm2 : m2 = false) by (destruct m2; [now rewrite Hmono3 in *|reflexivity]).
    assert (Hm1 : m1 = false) by (destruct m1; [now rewrite Hmono2 in Hm2|reflexivity]).
    rewrite (Hsame3 eq_refl), (Hsame2 Hm2), (Hsame1 Hm1), Hc3, Hc2, Hc1.
    reflexivity.
Qed.

Ltac split_truthy :=
  repeat match goal with
         | |- context [str_truthy ?v] => destruct (str_truthy v)
         end.

Lemma settings_of_synced env r : settings_of "1" (synced env r) = settings_of "1" r.
Proof. unfold synced. now rewrite !settings_of_with_env_key. Qed.

(** The key of a provider in a synced row: the variable when it is set and
    not empty, the old key otherwise. *)
Lemma key_of_synced provider col env r :
  In provider provider_list ->
  api_key_name provider = Some col ->
  key_of col (synced env r)
  = match env_var provider env with
    | Some v => if str_truthy v then Some v else key_of col r
    | None => key_of col r
    end.
Proof.
  intros Hin Hcol. simpl in Hin.
  destruct Hin as [<-|[<-|[<-|[<-|[]]]]]; simpl in Hcol;
    inversion Hcol; subst col; clear Hcol;
    unfold synced, with_env_key, env_var; cbn [String.eqb Ascii.eqb Bool.eqb];
    destruct env as [[vo|] [va|] [vg|]];
    cbn [OPENAI_API_KEY ANTHROPIC_API_KEY GROQ_API_KEY];
    split_truthy; destruct r; reflexivity.
Qed.

Lemma model_config_synced env r : model_config (synced env r) = model_config r.
Proof.
  unfold synced, with_env_key.
  destruct env as [[vo|] [va|] [vg|]];
    cbn [OPENAI_API_KEY ANTHROPIC_API_KEY GROQ_API_KEY];
    split_truthy; destruct r; reflexivity.
Qed.

Lemma synced_twice env r : synced env (synced env r) = synced env r.
Proof.
  unfold synced, with_env_key.
  destruct env as [[vo|] [va|] [vg|]];
    cbn [OPENAI_API_KEY ANTHROPIC_API_KEY GROQ_API_KEY];
    split_truthy; destruct r; reflexivity.
Qed.

(** X15.  [sync_env_vars_to_db] always returns normally.  Afterwards, for a
    provider whose variable is set and not empty, [get_api_key] returns the
    value of the variable, provided the settings row '1' exists; for a
    provider whose variable is unset or empty, and for ollama, which has no
    variable, [get_api_key] returns what it returned before.  The model
    configuration and the other four tables are unchanged. *)
Theorem sync_env_vars_to_db_effect :
  forall env d,
    let d' := snd (sync_env_vars_to_db env d) in
    fst (sync_env_vars_to_db env d) = Ok tt
    /\ (forall provider v,
          In provider provider_list ->
          env_var provider env = Some v ->
          v <> "" ->
          existsb (settings_of "1") (settings d) = true ->
          fst (get_api_key provider d') = Ok (Some v))
    /\ (forall provider,
          In provider provider_list ->
          env_var provider env = None \/ env_var provider env = Some "" ->
          fst (get_api_key provider d') = fst (get_api_key provider d))
    /\ env_var "ollama" env = None
    /\ fst (get_model_config d') = fst (get_model_config d)
    /\ meetings d' = meetings d
    /\ transcripts d' = transcripts d
    /\ summary_processes d' = summary_processes d
    /\ transcript_chunks d' = transcript_chunks d.
Proof.
  intros env d d'. subst d'. rewrite sync_env_vars_to_db_run. cbn [fst snd].
  split; [reflexivity|]. split; [|split; [|split; [|split]]].
  - intros provider v Hin Hvar Hne Hrow.
    destruct (api_key_ops_run provider Hin) as (col & Hcol & _ & _ & Hget).
    rewrite Hget. cbn [fst].
    rewrite stored_key_update by apply settings_of_synced.
    apply existsb_fetchone in Hrow. destruct Hrow as [r ->]. cbn [option_map].
    rewrite (key_of_synced provider col env r Hin Hcol), Hvar.
    destruct v; [congruence|reflexivity].
  - intros provider Hin Hvar.
    destruct (api_key_ops_run provider Hin) as (col & Hcol & _ & _ & Hget).
    rewrite !Hget. cbn [fst].
    rewrite stored_key_update by apply settings_of_synced.
    unfold stored_key.
    destruct (sql_fetchone (settings_of "1") (settings d)) as [r|];
      [|reflexivity].
    cbn [option_map]. rewrite (key_of_synced provider col env r Hin Hcol).
    now destruct Hvar as [-> | ->].
  - reflexivity.
  - rewrite !get_model_config_run. cbn [fst].
    destruct d as [ms ts ps cs ss]; cbn [set_settings settings].
    rewrite fetchone_update_same
      by (intros r Hr; now rewrite settings_of_synced).
    destruct (sql_fetchone (settings_of "1") ss) as [r|]; [|reflexivity].
    cbn [option_map]. now rewrite model_config_synced.
  - now destruct d.
Qed.

Lemma sync_env_vars_to_db_effect_witness :
  In "openai" provider_list
  /\ env_var "openai" two_keys_env = Some "sk-env"
  /\ "sk-env" <> ""
  /\ existsb (settings_of "1") (settings db_custom_settings) = true
  /\ fst (get_api_key "openai"
           (snd (sync_env_vars_to_db two_keys_env db_custom_settings)))
     = Ok (Some "sk-env").
Proof.
  assert (H1 : In "openai" provider_list) by (simpl; tauto).
  assert (H2 : "sk-env" <> "") by discriminate.
  split; [exact H1|]. split; [reflexivity|]. split; [exact H2|].
  split; [reflexivity|].
  exact (proj1 (proj2 (sync_env_vars_to_db_effect two_keys_env db_custom_settings))
           "openai" "sk-env" H1 eq_refl H2 eq_refl).
Defined.

(** X16.  The sync is idempotent: run again with the same environment on
    the database it left, it returns normally and changes nothing; and no
    sync adds or removes a settings row. *)
Theorem sync_env_vars_to_db_idempotent :
  forall env d,
    sync_env_vars_to_db env (snd (sync_env_vars_to_db env d))
    = (Ok tt, snd (sync_env_vars_to_db env d))
    /\ map Settings.id (settings (snd (sync_env_vars_to_db env d)))
       = map Settings.id (settings d).
Proof.
  intros env d. rewrite !sync_env_vars_to_db_run. cbn [snd].
  destruct d as [ms ts ps cs ss]; cbn [set_settings settings meetings
    transcripts summary_processes transcript_chunks].
  split.
  - rewrite sql_update_twice by apply settings_of_synced.
    assert (Honce : sql_update (settings_of "1")
                      (fun r => synced env (synced env r)) ss
                    = sql_update (settings_of "1") (synced env) ss).
    { unfold sql_update. apply map_ext. intros r.
      destruct (settings_of "1" r); [apply synced_twice|reflexivity]. }
    now rewrite Honce.
  - unfold sql_update. rewrite map_map. apply map_ext. intros r.
    destruct (settings_of "1" r) eqn:Hr; [|reflexivity].
    pose proof (settings_of_synced env r) as Hs. unfold settings_of in *.
    apply String.eqb_eq in Hr. rewrite Hr in Hs. apply String.eqb_eq in Hs.
    congruence.
Qed.

(** ** All operations together *)

Section Keys.
Context {R : Type} (key : R -> string).

Lemma update_keeps_key (w : R -> bool) (f : R -> R) (t : list R) :
  (forall r, key (f r) = key r) ->
  map key (sql_update w f t) = map key t.
Proof.
  intros Hkey. unfold sql_update. rewrite map_map. apply map_ext. intros r.
  destruct (w r); [apply Hkey|reflexivity].
Qed.

Lemma filter_keeps_primary_key (f : R -> bool) (t : list R) :
  primary_key key t -> primary_key key (filter f t).
Proof.
  unfold primary_key. induction t as [|x t IH]; simpl; intros Hk; [constructor|].
  inversion Hk as [|? ? Hnotin Hk']; subst.
  destruct (f x); simpl; [constructor|]; auto.
  intros Hin. apply Hnotin. apply in_map_iff in Hin.
  destruct Hin as (r & Hr & Hin). apply filter_In in Hin.
  apply in_map_iff. exists r. tauto.
Qed.

Lemma append_keeps_primary_key (t : list R) (r : R) :
  primary_key key t ->
  (forall x, In x t -> key x <> key r) ->
  primary_key key (t ++ [r]).
Proof.
  unfold primary_key. intros Hk Hfresh. rewrite map_app. simpl.
  apply NoDup_app; [assumption|repeat constructor; intros []|].
  intros k Hin [<-|[]]. apply in_map_iff in Hin.
  destruct Hin as (x & Hx & Hin). now apply (Hfresh x Hin).
Qed.

Lemma replace_keeps_primary_key (t : list R) (r : R) :
  primary_key key t ->
  primary_key key
    (sql_insert_or_replace (fun x => key x =? key r) r t).
Proof.
  intros Hk. unfold sql_insert_or_replace.
  apply append_keeps_primary_key; [now apply filter_keeps_primary_key|].
  intros x Hx. apply filter_In in Hx. destruct Hx as [_ Hx].
  apply negb_true_iff in Hx. now apply String.eqb_neq.
Qed.

End Keys.

(** [save_meeting] either raises and leaves the database, or found the id
    and the title free and added the row. *)
Lemma save_meeting_outcome now meeting_id title d :
  save_meeting now meeting_id title d
  = (Raise (Exception ("Meeting with ID " ++ meeting_id ++ " already exists")), d)
  \/ ((forall r, In r (meetings d) ->
                 Meetings.id r <> meeting_id /\ Meetings.title r <> title)
      /\ save_meeting now meeting_id title d
         = (Ok true,
            set_meetings
              (meetings d ++ [{| Meetings.id := meeting_id;
                                 Meetings.title := title;
                                 Meetings.created_at := now;
                                 Meetings.updated_at := now |}])%list d)).
Proof.
  destruct (sql_fetchone (id_or_title meeting_id title) (meetings d))
    as [r|] eqn:Hfetch.
  - left. apply fetchone_found in Hfetch. destruct Hfetch as [Hr Hw].
    apply save_meeting_conflict. exists r. split; [assumption|].
    unfold id_or_title in Hw. apply orb_true_iff in Hw.
    destruct Hw as [H|H]; [left|right]; now apply String.eqb_eq.
  - right. pose proof (fetchone_none_all _ _ Hfetch) as Hnone.
    assert (Hfree : forall r, In r (meetings d) ->
                      Meetings.id r <> meeting_id /\ Meetings.title r <> title).
    { intros r Hr. specialize (Hnone r Hr). unfold id_or_title in Hnone.
      apply orb_false_iff in Hnone. destruct Hnone as [H1 H2].
      split; now apply String.eqb_neq. }
    split; [exact Hfree|]. now apply save_meeting_new.
Qed.

(** Past the check of the provider list the if/elif chain finds a column. *)
Lemma listed_provider_has_column provider :
  not_in provider provider_list = false ->
  exists col, api_key_name provider = Some col.
Proof.
  intros Hin. apply in_provider_list.
  unfold not_in in Hin. apply negb_false_iff, existsb_exists in Hin.
  destruct Hin as (p & Hp & Heq). apply String.eqb_eq in Heq. now subst.
Qed.

(** The two writes to a key column, whatever the provider string. *)
Lemma write_api_key_outcome provider (v : option string) d :
  let call :=
    if not_in provider provider_list
    then (Raise (ValueError ("Invalid provider: " ++ provider)), d)
    else _get_connection
           (match api_key_name provider with
            | Some col => update_settings_key col v ;; commit
            | None => unbound_api_key_name
            end) d in
  call = (Raise (ValueError ("Invalid provider: " ++ provider)), d)
  \/ exists col,
       call = (Ok tt,
               set_settings
                 (sql_update (settings_of "1") (set_key col v) (settings d)) d).
Proof.
  cbv zeta. destruct (not_in provider provider_list) eqn:Hlist; [now left|].
  right. destruct (listed_provider_has_column _ Hlist) as (col & ->).
  exists col. apply write_key_run.
Qed.

Lemma sync_keeps_ids env d :
  map Settings.id (settings (snd (sync_env_vars_to_db env d)))
  = map Settings.id (settings d).
Proof.
  rewrite sync_env_vars_to_db_run. destruct d as [ms ts ps cs ss].
  cbn [snd set_settings settings]. apply update_keeps_key. intros r.
  unfold synced, with_env_key.
  destruct env as [[vo|] [va|] [vg|]];
    cbn [OPENAI_API_KEY ANTHROPIC_API_KEY GROQ_API_KEY];
    split_truthy; destruct r; reflexivity.
Qed.

Lemma set_key_id col v r : Settings.id (set_key col v r) = Settings.id r.
Proof. now destruct col. Qed.

Ltac tables :=
  cbn [fst snd set_meetings set_transcripts set_summary_processes
       set_transcript_chunks set_settings meetings transcripts
       summary_processes transcript_chunks settings] in *.

Lemma run_operation_well_keyed o d :
  well_keyed d -> well_keyed (snd (run_operation o d)).
Proof.
  unfold well_keyed. intros (Hm & Hp & Hc & Hs).
  destruct o; cbn [run_operation raised snd].
  - destruct (create_process_step now meeting_id d Hp) as (_ & Hp' & _).
    rewrite create_process_run in *. destruct d as [ms ts ps cs ss].
    destruct (_ =? 0)%nat; tables; repeat split; assumption.
  - rewrite update_process_run.
    destruct (chunk_count_binds chunk_count);
      [|tables; repeat split; assumption].
    destruct d as [ms ts ps cs ss]. tables.
    repeat split; try assumption.
    unfold primary_key in *. now rewrite update_keeps_keys.
  - rewrite save_transcript_run.
    destruct (fits_int64 chunk_size && fits_int64 overlap);
      [|tables; repeat split; assumption].
    destruct d as [ms ts ps cs ss]. tables.
    repeat split; try assumption.
    apply (replace_keeps_primary_key TranscriptChunks.meeting_id cs
             (new_chunks meeting_id _ model model_name chunk_size overlap now)).
    exact Hc.
  - rewrite update_meeting_name_run. tables. unfold primary_key in *.
    rewrite !update_keeps_key by reflexivity. repeat split; assumption.
  - rewrite get_transcript_data_run. tables. repeat split; assumption.
  - destruct (save_meeting_outcome now meeting_id title d) as [-> | [Hfree ->]];
      tables; [repeat split; assumption|].
    destruct d as [ms ts ps cs ss]. tables. repeat split; try assumption.
    apply append_keeps_primary_key; [assumption|].
    intros x Hx. cbn [Meetings.id]. now apply (Hfree x Hx).
  - rewrite save_meeting_transcript_run. destruct d as [ms ts ps cs ss]. tables.
    repeat split; assumption.
  - rewrite get_meeting_run. tables. repeat split; assumption.
  - rewrite update_meeting_title_run. tables. unfold primary_key in *.
    rewrite !update_keeps_key by reflexivity. repeat split; assumption.
  - rewrite delete_meeting_run. tables. unfold sql_delete.
    repeat split; try (now apply filter_keeps_primary_key). assumption.
  - rewrite get_model_config_run. tables. repeat split; assumption.
  - rewrite save_model_config_run. destruct d as [ms ts ps cs ss]. tables.
    destruct ss as [|s0 ss]; tables; repeat split; try assumption.
    + unfold primary_key. simpl. constructor; [intros []|constructor].
    + unfold primary_key in *. now rewrite update_keeps_key by reflexivity.
  - unfold save_api_key.
    destruct (write_api_key_outcome provider (Some api_key) d) as [-> | [col ->]];
      tables; [repeat split; assumption|].
    destruct d as [ms ts ps cs ss]. tables. repeat split; try assumption.
    unfold primary_key in *.
    now rewrite update_keeps_key by (intros r; apply set_key_id).
  - unfold get_api_key. destruct (not_in provider provider_list);
      [tables; repeat split; assumption|].
    destruct (api_key_name provider); cbn [_get_connection];
      repeat split; assumption.
  - unfold delete_api_key.
    destruct (write_api_key_outcome provider None d) as [-> | [col ->]];
      tables; [repeat split; assumption|].
    destruct d as [ms ts ps cs ss]. tables. repeat split; try assumption.
    unfold primary_key in *.
    now rewrite update_keeps_key by (intros r; apply set_key_id).
  - pose proof (sync_keeps_ids env d) as Hids.
    rewrite sync_env_vars_to_db_run in *. destruct d as [ms ts ps cs ss].
    tables. repeat split; try assumption.
    unfold primary_key in *. now rewrite Hids.
Qed.

(** X17.  The operations keep the primary keys: starting from a database
    in which no two meetings share an id, no two process rows and no two
    working-buffer rows share a meeting id, and no two settings rows share
    an id, this still holds after any sequence of calls of the operations,
    whatever their arguments and whether they raise or not. *)
Theorem operations_keep_primary_keys :
  forall ops d, well_keyed d -> well_keyed (run_operations ops d).
Proof.
  unfold run_operations.
  induction ops as [|o ops IH]; intros d Hd; cbn [fold_left]; [exact Hd|].
  apply IH. now apply run_operation_well_keyed.
Qed.

Lemma operations_keep_primary_keys_witness :
  well_keyed empty_db /\ well_keyed (run_operations busy_session empty_db).
Proof.
  assert (H : well_keyed empty_db) by (repeat split; constructor).
  split; [exact H|].
  exact (operations_keep_primary_keys busy_session empty_db H).
Defined.




Lemma existsb_by_id (t : list Settings.row) :
  existsb (settings_of "1") t
  = existsb (fun i => i =? "1") (map Settings.id t).
Proof.
  induction t as [|x t IH]; simpl; [reflexivity|]. now rewrite IH.
Qed.

Lemma run_operation_settings_ids o d :
  existsb (settings_of "1") (settings d) = true ->
  map Settings.id (settings (snd (run_operation o d)))
  = map Settings.id (settings d).
Proof.
  intros Hrow. destruct o; cbn [run_operation raised snd].
  - rewrite create_process_run. destruct d as [ms ts ps cs ss].
    now destruct (_ =? 0)%nat.
  - rewrite update_process_run.
    destruct (chunk_count_binds chunk_count); [now destruct d|reflexivity].
  - rewrite save_transcript_run.
    destruct (fits_int64 chunk_size && fits_int64 overlap);
      [now destruct d|reflexivity].
  - now rewrite update_meeting_name_run.
  - now rewrite get_transcript_data_run.
  - destruct (save_meeting_outcome now meeting_id title d) as [-> | [_ ->]];
      [reflexivity|now destruct d].
  - rewrite save_meeting_transcript_run. now destruct d.
  - now rewrite get_meeting_run.
  - now rewrite update_meeting_title_run.
  - now rewrite delete_meeting_run.
  - now rewrite get_model_config_run.
  - rewrite save_model_config_run. destruct d as [ms ts ps cs ss]. tables.
    destruct ss as [|s0 ss]; [discriminate|]. tables.
    now apply update_keeps_key.
  - unfold save_api_key.
    destruct (write_api_key_outcome provider (Some api_key) d) as [-> | [col ->]];
      [reflexivity|].
    destruct d as [ms ts ps cs ss]. tables.
    apply update_keeps_key. intros r. apply set_key_id.
  - unfold get_api_key. destruct (not_in provider provider_list); [reflexivity|].
    now destruct (api_key_name provider).
  - unfold delete_api_key.
    destruct (write_api_key_outcome provider None d) as [-> | [col ->]];
      [reflexivity|].
    destruct d as [ms ts ps cs ss]. tables.
    apply update_keeps_key. intros r. apply set_key_id.
  - apply sync_keeps_ids.
Qed.

Lemma run_operations_settings_ids ops :
  forall d,
    existsb (settings_of "1") (settings d) = true ->
    map Settings.id (settings (run_operations ops d))
    = map Settings.id (settings d)
    /\ existsb (settings_of "1") (settings (run_operations ops d)) = true.
Proof.
  unfold run_operations.
  induction ops as [|o ops IH]; intros d Hrow; cbn [fold_left];
    [now split|].
  pose proof (run_operation_settings_ids o d Hrow) as Hstep.
  assert (Hrow' : existsb (settings_of "1")
                    (settings (snd (run_operation o d))) = true)
    by (rewrite existsb_by_id, Hstep, <- existsb_by_id; exact Hrow).
  destruct (IH _ Hrow') as [Hids Hlast].
  split; [now rewrite Hids|exact Hlast].
Qed.

(** X19.  Once the settings row '1' exists, no sequence of operations
    deletes it, adds a settings row or changes the id of one: the ids of the
    settings rows are the same, in the same order, and the row '1' is still
    there. *)
Theorem operations_keep_settings_rows :
  forall ops d,
    existsb (settings_of "1") (settings d) = true ->
    map Settings.id (settings (run_operations ops d))
    = map Settings.id (settings d)
    /\ existsb (settings_of "1") (settings (run_operations ops d)) = true.
Proof. intros ops d. apply run_operations_settings_ids. Qed.

Lemma operations_keep_settings_rows_witness :
  existsb (settings_of "1") (settings db_custom_settings) = true
  /\ map Settings.id (settings (run_operations busy_session db_custom_settings))
     = ["1"].
Proof.
  split; [reflexivity|].
  exact (proj1 (operations_keep_settings_rows busy_session db_custom_settings
                  eq_refl)).
Defined.

(** X20.  After the bootstrap the model configuration is always there: on
    the database [_init_db] leaves, whatever the file was, and after any
    sequence of operations on it, [get_model_config] returns a dict and not
    None. *)
Theorem model_config_available_after_bootstrap :
  forall f ops,
    fst (_init_db f) = Ok tt
    /\ exists config,
         fst (get_model_config (run_operations ops (snd (_init_db f))))
         = Ok (Some config).
Proof.
  intros f ops. rewrite _init_db_run. cbn [fst snd].
  split; [reflexivity|].
  set (d := {| meetings := _ |}).
  assert (Hrow : existsb (settings_of "1") (settings d) = true)
    by apply insert_or_ignore_has_row.
  destruct (run_operations_settings_ids ops d Hrow) as [_ Hlast].
  rewrite get_model_config_run. cbn [fst].
  apply existsb_fetchone in Hlast. destruct Hlast as [r ->].
  now eexists.
Qed.

(** ** Restarting a process, and the joined view *)

(** X21.  [create_process] on a meeting that has a process row rewrites
    status, updated_at, start_time, error and result only: the end_time,
    chunk_count, processing_time and metadata of the earlier run stay in the
    row.  The process rows of other meetings and the other four tables are
    unchanged. *)
Theorem create_process_keeps_metrics_of_last_run :
  forall now meeting_id d r,
    processes_for meeting_id d = [r] ->
    let d' := snd (create_process now meeting_id d) in
    processes_for meeting_id d'
    = [{| SummaryProcesses.meeting_id := SummaryProcesses.meeting_id r;
          SummaryProcesses.status := "PENDING";
          SummaryProcesses.created_at := SummaryProcesses.created_at r;
          SummaryProcesses.updated_at := now;
          SummaryProcesses.error := None;
          SummaryProcesses.result := None;
          SummaryProcesses.start_time := Some now;
          SummaryProcesses.end_time := SummaryProcesses.end_time r;
          SummaryProcesses.chunk_count := SummaryProcesses.chunk_count r;
          SummaryProcesses.processing_time := SummaryProcesses.processing_time r;
          SummaryProcesses.metadata := SummaryProcesses.metadata r |}]
    /\ sql_where (fun x => negb (process_of meeting_id x)) (summary_processes d')
       = sql_where (fun x => negb (process_of meeting_id x)) (summary_processes d)
    /\ meetings d' = meetings d
    /\ transcripts d' = transcripts d
    /\ transcript_chunks d' = transcript_chunks d
    /\ settings d' = settings d.
Proof.
  intros now meeting_id d r Hr d'. subst d'.
  split.
  - rewrite processes_for_create, Hr. reflexivity.
  - rewrite create_process_run. cbn [snd].
    assert (Hcount : (sql_rowcount (process_of meeting_id) (summary_processes d)
                      =? 0)%nat = false).
    { unfold sql_rowcount. unfold processes_for in Hr. now rewrite Hr. }
    rewrite Hcount. destruct d as [ms ts ps cs ss]. tables.
    split; [apply others_update|repeat split].
Qed.

Lemma create_process_keeps_metrics_of_last_run_witness :
  processes_for "m1" db_m1_failed = [failed_m1]
  /\ exists r,
       processes_for "m1" (snd (create_process "t5" "m1" db_m1_failed)) = [r]
       /\ SummaryProcesses.status r = "PENDING"
       /\ SummaryProcesses.end_time r = Some "t1".
Proof.
  split; [reflexivity|].
  eexists. split.
  - exact (proj1 (create_process_keeps_metrics_of_last_run "t5" "m1"
                    db_m1_failed failed_m1 eq_refl)).
  - split; reflexivity.
Defined.

(** The join when the meeting has one working-buffer row, the last of the
    table: that row paired with each process row of the meeting. *)
Lemma select_with_one_buffer meeting_id d others c :
  transcript_chunks d = (others ++ [c])%list ->
  (forall x, In x others -> chunks_of meeting_id x = false) ->
  TranscriptChunks.meeting_id c = meeting_id ->
  select_transcript_data meeting_id d = map (pair c) (processes_for meeting_id d).
Proof.
  intros Hcs Hothers Hc. rewrite select_transcript_data_by_row, Hcs.
  rewrite flat_map_app. cbn [flat_map].
  assert (Hnone : forall l,
            (forall x, In x l -> chunks_of meeting_id x = false) ->
            flat_map
              (fun t =>
                 if chunks_of meeting_id t
                 then map (pair t)
                        (filter (fun p => TranscriptChunks.meeting_id t
                                          =? SummaryProcesses.meeting_id p)
                           (summary_processes d))
                 else []) l = []).
  { induction l as [|x l IH]; intros Hl; [reflexivity|]. cbn [flat_map].
    rewrite (Hl x (or_introl eq_refl)), IH; [reflexivity|].
    intros y Hy. apply Hl. now right. }
  rewrite (Hnone others Hothers). cbn [app].
  unfold chunks_of at 1. rewrite Hc, String.eqb_refl, app_nil_r.
  f_equal. unfold processes_for, sql_where, process_of.
  apply filter_ext. intros p. apply String.eqb_sym.
Qed.

Lemma create_process_other_tables now meeting_id d :
  transcript_chunks (snd (create_process now meeting_id d)) = transcript_chunks d.
Proof.
  rewrite create_process_run. destruct d as [ms ts ps cs ss].
  now destruct (_ =? 0)%nat.
Qed.

(** X22.  The working buffer and the process tracker meet in
    [get_transcript_data]: after [save_transcript], with chunk_size and
    overlap within the 64-bit signed range, and then [create_process] for a
    meeting, it returns a dict for the meeting with the accumulated text,
    the model, model_name, chunk_size, overlap and created_at of the save, a
    null meeting_name, status PENDING and a null result. *)
Theorem transcript_data_after_save_and_create :
  forall now1 now2 meeting_id transcript_text model model_name chunk_size
         overlap d,
    (- 2 ^ 63 <= chunk_size <= 2 ^ 63 - 1)%Z ->
    (- 2 ^ 63 <= overlap <= 2 ^ 63 - 1)%Z ->
    let d1 := snd (save_transcript now1 meeting_id transcript_text model
                     model_name chunk_size overlap d) in
    let d2 := snd (create_process now2 meeting_id d1) in
    exists data,
      fst (get_transcript_data meeting_id d2) = Ok (Some data)
      /\ dict_get "meeting_id" data = Some (Text meeting_id)
      /\ dict_get "meeting_name" data = Some Null
      /\ dict_get "transcript_text" data
         = Some (Text (stored_text meeting_id d ++ transcript_text))
      /\ dict_get "model" data = Some (Text model)
      /\ dict_get "model_name" data = Some (Text model_name)
      /\ dict_get "chunk_size" data = Some (Integer chunk_size)
      /\ dict_get "overlap" data = Some (Integer overlap)
      /\ dict_get "created_at" data = Some (Text now1)
      /\ dict_get "status" data = Some (Text "PENDING")
      /\ dict_get "result" data = Some Null.
Proof.
  intros now1 now2 meeting_id transcript_text model model_name chunk_size
    overlap d Hc Ho d1 d2.
  pose proof (both_fit _ _ Hc Ho) as Hfit.
  set (c := new_chunks meeting_id (stored_text meeting_id d ++ transcript_text)
              model model_name chunk_size overlap now1).
  assert (Hsel : select_transcript_data meeting_id d2
                 = map (pair c) (processes_for meeting_id d2)).
  { apply (select_with_one_buffer meeting_id d2
             (filter (fun x => negb (chunks_of meeting_id x))
                (transcript_chunks d))).
    - subst d2 d1.
      rewrite create_process_other_tables, save_transcript_run, Hfit.
      now destruct d.
    - intros x Hx. apply filter_In in Hx. destruct Hx as [_ Hx].
      now apply negb_true_iff.
    - reflexivity. }
  rewrite get_transcript_data_run, Hsel. cbn [fst].
  subst d2. rewrite processes_for_create.
  destruct (processes_for meeting_id d1) as [|r rows]; cbn [map];
    (eexists; split; [reflexivity|]; repeat split).
Qed.

Lemma transcript_data_after_save_and_create_witness :
  (- 2 ^ 63 <= 1000 <= 2 ^ 63 - 1)%Z /\ (- 2 ^ 63 <= 100 <= 2 ^ 63 - 1)%Z
  /\ exists data,
       fst (get_transcript_data "m1"
              (snd (create_process "t4" "m1"
                      (snd (save_transcript "t3" "m1" "<p>bye</p>" "claude"
                              "sonnet" 1000 100 db_m1_renamed)))))
       = Ok (Some data)
       /\ dict_get "transcript_text" data
          = Some (Text ("<p>hello</p>" ++ "<p>bye</p>"))
       /\ dict_get "status" data = Some (Text "PENDING").
Proof.
  assert (H1 : (- 2 ^ 63 <= 1000 <= 2 ^ 63 - 1)%Z) by lia.
  assert (H2 : (- 2 ^ 63 <= 100 <= 2 ^ 63 - 1)%Z) by lia.
  split; [exact H1|]. split; [exact H2|].
  destruct (transcript_data_after_save_and_create "t3" "t4" "m1" "<p>bye</p>"
              "claude" "sonnet" 1000 100 db_m1_renamed H1 H2)
    as (data & Hget & _ & _ & Htext & _ & _ & _ & _ & _ & Hstatus & _).
  exists data. split; [exact Hget|]. split; [exact Htext|exact Hstatus].
Defined.
